(** * libulcd43: the protocol and transport layer of [src/util.c]

    A shallow embedding of the encoder ([pack_uint], [unpack_uint],
    [pack_uints]), the error setter ([ulcd_error]) and the exchange
    protocol ([ulcd_send], [ulcd_recv_ack], [ulcd_send_recv_ack],
    [ulcd_send_recv_ack_data], [ulcd_send_recv_ack_word]) together with
    [ulcd_new] and [ulcd_open_serial_device], followed by the properties
    of the natural language specification that concern them.
    [ulcd_set_serial_parameters], [ulcd_free] and [print_hex] take no
    part in those properties and are left out.

    Conventions.
    - C integers are [Z]; every conversion between C types is written out
      ([to_size_t], [to_param], [store], [char_load]).
    - Memory is a list of bytes (each cell holds a value in [0, 255]); a
      [char *] is a buffer together with an offset into it.
    - The operating system is a scripted transport: each call of [open],
      [write] or [read] is answered by the next event of the matching
      script; bytes that a [read] does not take stay ready for the next
      one.  A call made when its script is exhausted never returns (a
      blocking [read] on a silent line), which the embedding renders as
      [None].
    - What [ulcd43.h] defines is not among the sources: the error codes
      and [STRBUFSIZE] are parameters ([Header]), [ACK], [NAK] and the
      width of [param_t] are taken from the specification. *)

From Stdlib Require Import ZArith String Ascii Bool List Lia.
Import ListNotations.
Local Open Scope Z_scope.

(** ** Machine integers and memory *)

(** [size_t] is the 64-bit unsigned type of the LP64 platforms whose
    baud constants the file uses. *)
Definition size_t_modulus : Z := 2 ^ 64.

(** Conversion of an integer value to [size_t]. *)
Definition to_size_t (z : Z) : Z := z mod size_t_modulus.

(** Modelled from the spec: [param_t] is declared in [ulcd43.h], which is
    not among the sources; the spec calls a parameter "a 16-bit unsigned
    quantity".  Conversion of an integer value to [param_t]. *)
Definition to_param (z : Z) : Z := z mod 2 ^ 16.

(** Writing integer value [v] into the [char] cell [i] of [mem] keeps the
    low eight bits of [v].  A store outside [mem] is undefined in C; here
    it leaves [mem] as it is. *)
Fixpoint store (mem : list Z) (i : nat) (v : Z) : list Z :=
  match mem, i with
  | [], _ => []
  | _ :: m, O => v mod 256 :: m
  | b :: m, S i' => b :: store m i' v
  end.

(** The byte in cell [i] of [mem]. *)
Definition load (mem : list Z) (i : nat) : Z := nth i mem 0.

(** [write_at mem off bs]: the bytes [bs] copied into [mem] from cell
    [off] on, as [read(2)] does with the bytes it delivers. *)
Definition write_at (mem : list Z) (off : nat) (bs : list Z) : list Z :=
  firstn off mem ++ bs ++ skipn (off + length bs) mem.

(** ** What the platform and the header fix *)

(** The platform: whether plain [char] is a signed type, and the text
    [strerror] gives for an error number. *)
Class Platform : Type := {
  char_signed : bool;
  strerror : Z -> string
}.

(** The constants of [ulcd43.h] that [util.c] names.  The header is not
    among the sources and the spec gives them no numeric value, so they
    are parameters of the development. *)
Class Header : Type := {
  ERROK : Z;
  ERRNAK : Z;
  ERRUNKNOWN : Z;
  STRBUFSIZE : nat
}.

(** Modelled from the spec: [ACK] and [NAK] are defined in [ulcd43.h],
    which is not among the sources; the spec gives the reply bytes as
    "ACK (0x06)/NAK (0x15)". *)
Definition ACK : Z := 0x06.
Definition NAK : Z := 0x15.

(** ** Encoder *)

Section Encoder.

Context {platform : Platform}.

(** The value of a [char] object whose byte is [b], promoted to [int]. *)
Definition char_load (b : Z) : Z :=
  if char_signed then (b + 128) mod 256 - 128 else b mod 256.

(** [pack_uint(dest, src)] with [dest] pointing at cell [off] of the
    buffer and [src] the [param_t] value; the result is the buffer
    after the two stores and the returned [int]. *)
Definition pack_uint (dest : list Z) (off : nat) (src : Z) : list Z * Z :=
  let dest := store dest off (Z.shiftr (Z.land src 0xff00) 8) in
  let dest := store dest (off + 1) (Z.land src 0x00ff) in
  (dest, 2).

(** [unpack_uint(dest, src)] with [src] pointing at cell [off]: the
    value assigned to [*dest].  (Shifting a negative [char] left is
    what compilers do arithmetically; [Z.shiftl] is that.) *)
Definition unpack_uint (src : list Z) (off : nat) : Z :=
  to_param
    (Z.lor (Z.land (Z.shiftl (char_load (load src off)) 8) 0xff00)
           (Z.land (char_load (load src (off + 1))) 0x00ff)).

(** The loop of [pack_uints]: [n] iterations are left, [lst] is what
    [va_arg] has not consumed yet.  Asking [va_arg] for an argument that
    was not passed is undefined: [None]. *)
Fixpoint pack_uints_loop (n : nat) (buffer : list Z) (off : nat)
         (lst : list Z) : option (list Z) :=
  match n with
  | O => Some buffer
  | S n' =>
      match lst with
      | [] => None
      | v :: lst' =>
          pack_uints_loop n' (fst (pack_uint buffer off (to_param v)))
                          (off + 2) lst'
      end
  end.

(** [pack_uints(buffer, args, ...)], [buffer] pointing at cell [off].
    The returned [args * 2] is the product of two [int]s: it is the
    value C computes as long as it does not overflow, that is for
    [- 2 ^ 30 <= args < 2 ^ 30]; beyond that the C product is
    undefined and the value given here stands for nothing. *)
Definition pack_uints (buffer : list Z) (off : nat) (args : Z)
           (lst : list Z) : option (list Z * Z) :=
  match pack_uints_loop (Z.to_nat args) buffer off lst with
  | Some b => Some (b, args * 2)
  | None => None
  end.

End Encoder.

(** The two bytes [pack_uint] produces for [v], as a list. *)
Definition packed (v : Z) : list Z := fst (pack_uint [0; 0] 0 v).

(** ** The device handle and error reporting *)

(** [struct ulcd_t], declared in the absent [ulcd43.h], with the fields
    [util.c] uses.  [err] is the message buffer, the array that
    [vsnprintf] is given with the bound [STRBUFSIZE]. *)
Record ulcd_t : Type := mk_ulcd {
  fd : Z;
  device : string;
  baudrate : Z;
  error : Z;
  err : list ascii
}.

(** The C string held in a character array: the characters before the
    first NUL. *)
Fixpoint c_str (buf : list ascii) : string :=
  match buf with
  | [] => EmptyString
  | c :: rest =>
      if Ascii.eqb c zero then EmptyString else String c (c_str rest)
  end.

(** [vsnprintf(buf, size, ...)] where [text] is the expansion of the
    format with its arguments: at most [size - 1] characters of [text]
    are written, then a NUL; nothing is written when [size] is 0. *)
Definition vsnprintf (buf : list ascii) (size : nat) (text : string)
  : list ascii :=
  match size with
  | O => buf
  | S m =>
      let out := firstn m (list_ascii_of_string text) in
      out ++ zero :: skipn (S (length out)) buf
  end.

Section Handle.

Context {header : Header}.

(** [ulcd_new()]: [memset] clears the object, then [fd] is set to -1. *)
Definition ulcd_new : ulcd_t :=
  {| fd := -1; device := EmptyString; baudrate := 0; error := 0;
     err := repeat zero STRBUFSIZE |}.

(** [ulcd_error(ulcd, error, err, ...)]: [msg] is [None] for a NULL
    format and otherwise the expansion of the format with its
    arguments.  The result is the returned [int] and the handle. *)
Definition ulcd_error (ulcd : ulcd_t) (error : Z) (msg : option string)
  : Z * ulcd_t :=
  let buf :=
    match msg with
    | None =>
        match err ulcd with
        | [] => []
        | _ :: rest => zero :: rest
        end
    | Some text => vsnprintf (err ulcd) STRBUFSIZE text
    end in
  (error,
   {| fd := fd ulcd; device := device ulcd; baudrate := baudrate ulcd;
      error := error; err := buf |}).

End Handle.

(** ** The scripted transport *)

(** What one call of [open], [write] or [read] does.  A failing call
    returns -1 and sets [errno] to a positive error number. *)
Inductive open_event : Type :=
| OpenFail (e : positive)
| OpenOk (descriptor : N).     (* a successful [open] returns no negative *)

Inductive write_event : Type :=
| WriteFail (e : positive)
| WriteOk (accepts : nat).     (* the device takes at most this many bytes *)

Inductive read_event : Type :=
| ReadFail (e : positive)
| ReadChunk (bytes : list Z).  (* the bytes that are ready for this call *)

(** The world outside the handle: the three scripts, the slices written
    so far (latest last), the number of [read] calls made, [errno], and
    what an automatic object holds before it is assigned ([uninit k] for
    its k-th cell). *)
Record world : Type := mk_world {
  open_script : list open_event;
  write_script : list write_event;
  read_script : list read_event;
  written : list (list Z);
  read_calls : nat;
  errno : Z;
  uninit : nat -> Z
}.

(** A computation over the world and the handle that may never return. *)
Definition state : Type := (world * ulcd_t)%type.
Definition M (A : Type) : Type := state -> option (A * state).

Definition ret {A} (a : A) : M A := fun s => Some (a, s).

Definition bind {A B} (m : M A) (k : A -> M B) : M B :=
  fun s => match m s with
           | Some (a, s') => k a s'
           | None => None
           end.

(** A call that never returns. *)
Definition blocked {A} : M A := fun _ => None.

Declare Scope ulcd_scope.
Delimit Scope ulcd_scope with ulcd.
Notation "x <- m ;; k" := (bind m (fun x => k))
  (at level 100, m at next level, right associativity) : ulcd_scope.
Notation "' p <- m ;; k" := (bind m (fun p => k))
  (at level 100, p pattern, m at next level, right associativity)
  : ulcd_scope.
Local Open Scope ulcd_scope.

Definition get_errno : M Z := fun s => Some (errno (fst s), s).
Definition get_error : M Z := fun s => Some (error (snd s), s).
Definition get_uninit (k : nat) : M Z := fun s => Some (uninit (fst s) k, s).

Definition set_fd (v : Z) : M unit :=
  fun '(w, u) =>
    Some (tt, (w, {| fd := v; device := device u; baudrate := baudrate u;
                     error := error u; err := err u |})).

(** [open(path, flags)]. *)
Definition sys_open : M Z :=
  fun '(w, u) =>
    match open_script w with
    | [] => None
    | OpenFail e :: rest =>
        Some (-1, (mk_world rest (write_script w) (read_script w)
                            (written w) (read_calls w) (Z.pos e)
                            (uninit w), u))
    | OpenOk d :: rest =>
        Some (Z.of_N d, (mk_world rest (write_script w) (read_script w)
                                  (written w) (read_calls w) (errno w)
                                  (uninit w), u))
    end.

(** [write(fd, buf, count)]: [buf] is the memory from the pointer on. *)
Definition sys_write (buf : list Z) (count : Z) : M Z :=
  fun '(w, u) =>
    match write_script w with
    | [] => None
    | WriteFail e :: rest =>
        Some (-1, (mk_world (open_script w) rest (read_script w) (written w)
                            (read_calls w) (Z.pos e) (uninit w), u))
    | WriteOk k :: rest =>
        let n := Nat.min k (Z.to_nat count) in
        Some (Z.of_nat n,
              (mk_world (open_script w) rest (read_script w)
                        (written w ++ [firstn n buf])
                        (read_calls w) (errno w) (uninit w), u))
    end.

(** What is left of the read script once a call asking for [count]
    bytes was answered from the chunk [bs]: the bytes not taken stay
    ready for the next call. *)
Definition unread (count : nat) (bs : list Z) (rest : list read_event)
  : list read_event :=
  match skipn count bs with
  | [] => rest
  | b :: more => ReadChunk (b :: more) :: rest
  end.

(** [read(fd, buf, count)]: the returned value and the bytes delivered
    (the caller's buffer receives them). *)
Definition sys_read (count : Z) : M (Z * list Z) :=
  fun '(w, u) =>
    match read_script w with
    | [] => None
    | ReadFail e :: rest =>
        Some ((-1, []),
              (mk_world (open_script w) (write_script w) rest (written w)
                        (S (read_calls w)) (Z.pos e) (uninit w), u))
    | ReadChunk bs :: rest =>
        let got := firstn (Z.to_nat count) bs in
        Some ((Z.of_nat (length got), got),
              (mk_world (open_script w) (write_script w)
                        (unread (Z.to_nat count) bs rest) (written w)
                        (S (read_calls w)) (errno w) (uninit w), u))
    end.

(** A bound on the number of [read] calls a read script can answer when
    each call asks for at least one byte: every call uses up an event
    or at least one byte of a chunk. *)
Fixpoint read_weight (script : list read_event) : nat :=
  match script with
  | [] => 0
  | ReadFail _ :: rest => S (read_weight rest)
  | ReadChunk bs :: rest => S (length bs + read_weight rest)
  end.

(** ** The exchange protocol *)

Section Protocol.

Context {platform : Platform} {header : Header}.

(** [return ulcd_error(ulcd, error, ...)] as a step of a computation. *)
Definition fail_with (code : Z) (msg : option string) : M Z :=
  fun '(w, u) => let (r, u') := ulcd_error u code msg in Some (r, (w, u')).

(** [ulcd_open_serial_device].  The [fcntl] call changes nothing the
    embedding observes. *)
Definition ulcd_open_serial_device : M Z :=
  d <- sys_open ;;
  _ <- set_fd d ;;
  if d =? -1 then
    e <- get_errno ;;
    fail_with e (Some ("Unable to open serial device: " ++ strerror e)%string)
  else ret ERROK.

(** The loop of [ulcd_send]; [fuel] bounds the iterations by the
    number of events left in the write script, one being consumed by
    each iteration. *)
Fixpoint send_loop (fuel : nat) (data : list Z) (size : Z) (total : Z)
  : M Z :=
  if total <? to_size_t size then
    match fuel with
    | O => blocked
    | S fuel' =>
        r <- sys_write (skipn (Z.to_nat total) data)
                       (to_size_t (to_size_t size - total)) ;;
        let sent := to_size_t r in
        if sent <? 0 then
          e <- get_errno ;;
          fail_with e
            (Some ("Unable to send data to device: " ++ strerror e)%string)
        else send_loop fuel' data size (to_size_t (total + sent))
    end
  else ret ERROK.

(** [ulcd_send(ulcd, data, size)]. *)
Definition ulcd_send (data : list Z) (size : Z) : M Z :=
  fun s => send_loop (length (write_script (fst s))) data size 0 s.

(** [ulcd_recv_ack(ulcd)]: [r] holds what [read] stored, or what it
    held before when [read] stored nothing. *)
Definition ulcd_recv_ack : M Z :=
  r0 <- get_uninit 0 ;;
  '(bytes_read, got) <- sys_read 1 ;;
  let r := char_load (hd r0 got) in
  if r =? ACK then ret ERROK
  else if r =? NAK then
    fail_with ERRNAK (Some "Device sent NAK instead of ACK"%string)
  else
    fail_with ERRUNKNOWN
      (Some "Device sent unknown reply instead of ACK"%string).

(** The body of [ulcd_send_recv_ack] over its send step. *)
Definition send_recv_ack_with (send_step : M Z) : M Z :=
  s <- send_step ;;
  if negb (s =? 0) then get_error
  else
    a <- ulcd_recv_ack ;;
    if negb (a =? 0) then get_error else ret ERROK.

(** [ulcd_send_recv_ack(ulcd, data, size)]. *)
Definition ulcd_send_recv_ack (data : list Z) (size : Z) : M Z :=
  send_recv_ack_with (ulcd_send data size).

(** The read loop of [ulcd_send_recv_ack_data]; [fuel] bounds the
    iterations by the number of calls the read script can answer. *)
Fixpoint data_loop (fuel : nat) (buffer : list Z) (datasize : Z)
         (total : Z) : M (Z * list Z) :=
  if total <? to_size_t datasize then
    match fuel with
    | O => blocked
    | S fuel' =>
        '(r, got) <- sys_read (to_size_t (to_size_t datasize - total)) ;;
        let buffer := write_at buffer (Z.to_nat total) got in
        let bytes_read := to_size_t r in
        if bytes_read <? 0 then
          e <- get_errno ;;
          c <- fail_with e
                 (Some ("Unable to read data from device: "
                          ++ strerror e)%string) ;;
          ret (c, buffer)
        else data_loop fuel' buffer datasize (to_size_t (total + bytes_read))
    end
  else ret (ERROK, buffer).

(** [ulcd_send_recv_ack_data(ulcd, data, size, buffer, datasize)]: the
    returned [int] and the caller's buffer afterwards. *)
Definition ulcd_send_recv_ack_data (data : list Z) (size : Z)
           (buffer : list Z) (datasize : Z) : M (Z * list Z) :=
  x <- ulcd_send_recv_ack data size ;;
  if negb (x =? 0) then
    e <- get_error ;; ret (e, buffer)
  else
    fun s =>
    data_loop (read_weight (read_script (fst s))) buffer datasize 0 s.

(** [ulcd_send_recv_ack_word(ulcd, data, size, param)]: [want] tells
    whether [param] is non-NULL; the result is the returned [int] and
    the value stored through [param], if any. *)
Definition ulcd_send_recv_ack_word (data : list Z) (size : Z)
           (want : bool) : M (Z * option Z) :=
  b0 <- get_uninit 0 ;;
  b1 <- get_uninit 1 ;;
  '(x, buffer) <- ulcd_send_recv_ack_data data size [b0; b1] 2 ;;
  if negb (x =? 0) then ret (-1, None)
  else if want then ret (ERROK, Some (unpack_uint buffer 0))
  else ret (ERROK, None).

End Protocol.

(** ** What the theorems observe *)

(** The world after a one-byte [read] call answered by [ev], [rest]
    being the events that follow [ev] in the read script. *)
Definition after_read (w : world) (ev : read_event) (rest : list read_event)
  : world :=
  mk_world (open_script w) (write_script w)
           (match ev with
            | ReadFail _ => rest
            | ReadChunk bs => unread 1 bs rest
            end)
           (written w) (S (read_calls w))
           (match ev with ReadFail e => Z.pos e | ReadChunk _ => errno w end)
           (uninit w).

(** The byte in the one-byte reply buffer of [ulcd_recv_ack] once its
    [read] was answered by [ev]: the first byte delivered, and the
    buffer's previous content when none was. *)
Definition reply_byte (w : world) (ev : read_event) : Z :=
  match ev with
  | ReadChunk (b :: _) => b
  | ReadChunk [] => uninit w 0
  | ReadFail _ => uninit w 0
  end.

(** The world after [chunks] were read one call each, [rest] being the
    events left in the read script. *)
Definition after_chunks (w : world) (chunks : list (list Z))
           (rest : list read_event) : world :=
  mk_world (open_script w) (write_script w) rest (written w)
           (length chunks + read_calls w) (errno w) (uninit w).

(** The error numbers with which a call of the scripts fails. *)
Definition os_error (w : world) (code : Z) : Prop :=
  exists e : positive,
    code = Z.pos e /\
    (In (OpenFail e) (open_script w) \/
     In (WriteFail e) (write_script w) \/
     In (ReadFail e) (read_script w)).

(** The codes an operation started in world [w] may report: the three
    of the header and the error numbers of failed calls. *)
Definition in_taxonomy {header : Header} (w : world) (code : Z) : Prop :=
  code = ERROK \/ code = ERRNAK \/ code = ERRUNKNOWN \/ os_error w code.

(** How an operation started in state [s] reports when it returns [r]
    in state [s']: [r] is a code of the taxonomy; a code other than
    [ERROK] is the one now on the handle; [ERROK] leaves the error code
    and message of the handle as they were. *)
Definition reported {header : Header} (s : state) (r : Z) (s' : state)
  : Prop :=
  in_taxonomy (fst s) r /\
  (r <> ERROK -> error (snd s') = r) /\
  (r = ERROK ->
   error (snd s') = error (snd s) /\ err (snd s') = err (snd s)).

(** [data] cut into consecutive slices of the lengths [ks]. *)
Fixpoint slices (data : list Z) (ks : list nat) : list (list Z) :=
  match ks with
  | [] => []
  | k :: ks' => firstn k data :: slices (skipn k data) ks'
  end.

(** ** Concrete platforms, headers and transports

    Closed instances, used to evaluate the definitions. *)

(** The error texts of a few error numbers. *)
Definition strerror_text (e : Z) : string :=
  if e =? 2 then "No such file or directory"
  else if e =? 5 then "Input/output error"
  else "Unknown error".

Definition signed_char_platform : Platform :=
  {| char_signed := true; strerror := strerror_text |}.

Definition unsigned_char_platform : Platform :=
  {| char_signed := false; strerror := strerror_text |}.

(** One admissible choice of the header's constants. *)
Definition sample_header : Header :=
  {| ERROK := 0; ERRNAK := 1; ERRUNKNOWN := 2; STRBUFSIZE := 256 |}.

(** A transport with the given write and read scripts and nothing done
    yet. *)
Definition fresh_world (ws : list write_event) (rs : list read_event)
  : world :=
  {| open_script := []; write_script := ws; read_script := rs;
     written := []; read_calls := 0; errno := 0; uninit := fun _ => 0 |}.

(** A header whose message buffer is too small for most messages. *)
Definition tiny_header : Header :=
  {| ERROK := 0; ERRNAK := 1; ERRUNKNOWN := 2; STRBUFSIZE := 8 |}.

(** The handle [ulcd_new] makes under [sample_header]. *)
Definition new_handle : ulcd_t := ulcd_new (header := sample_header).

(** A handle on which an earlier exchange left a NAK. *)
Definition nak_handle : ulcd_t :=
  snd (ulcd_error (header := sample_header) new_handle 1
                  (Some "Device sent NAK instead of ACK"%string)).

(** A transport whose next [read] fails with [EIO] while the reply
    buffer of the caller happens to hold the ACK byte. *)
Definition failing_read_world : world :=
  {| open_script := []; write_script := [];
     read_script := [ReadFail 5];
     written := []; read_calls := 0; errno := 0; uninit := fun _ => ACK |}.

(** A device that takes a three-byte command whole, acknowledges it and
    then delivers a four-byte payload in reads of 1, 2 and 1 bytes. *)
Definition payload_world : world :=
  fresh_world [WriteOk 3]
              [ReadChunk [ACK]; ReadChunk [10]; ReadChunk [20; 30];
               ReadChunk [40]].

(** A device that answers a command with NAK and then with ACK. *)
Definition nak_then_ack_world : world :=
  fresh_world [WriteOk 3; WriteOk 3] [ReadChunk [NAK]; ReadChunk [ACK]].

(** A device that acknowledges, seen through a handle that still holds
    the NAK of an earlier exchange. *)
Definition ack_world : world := fresh_world [] [ReadChunk [ACK]].

(** ** Release of the handle *)

(** [ulcd_free(ulcd)]: the descriptors it hands to [close], in order
    (the release of the memory itself is not observed). *)
Definition ulcd_free (ulcd : ulcd_t) : list Z :=
  if negb (fd ulcd =? -1) then [fd ulcd] else [].

(** What every operation on an open line keeps of the handle: the
    descriptor, the path, the speed and the size of the message
    buffer. *)
Definition same_line (u u' : ulcd_t) : Prop :=
  fd u' = fd u /\ device u' = device u /\ baudrate u' = baudrate u /\
  length (err u') = length (err u).

(** ** Line settings *)

(** [struct termios] of [<termios.h>]: the four flag words, the control
    characters by index, and the two speeds. *)
Record termios : Type := mk_termios {
  c_iflag : Z;
  c_oflag : Z;
  c_cflag : Z;
  c_lflag : Z;
  c_cc : nat -> Z;
  c_ispeed : Z;
  c_ospeed : Z
}.

(** What [<termios.h>] fixes for [ulcd_set_serial_parameters]: the flag
    masks, the two indices into [c_cc], and the two functions that
    store a speed in the settings (where they keep it is theirs to
    choose).  A system header, so its values are parameters. *)
Class Termios_h : Type := {
  PARENB : Z;
  CSTOPB : Z;
  CSIZE : Z;
  CS8 : Z;
  CREAD : Z;
  ICANON : Z;
  ECHO : Z;
  ECHOE : Z;
  ISIG : Z;
  IGNPAR : Z;
  IXON : Z;
  IXOFF : Z;
  IXANY : Z;
  OPOST : Z;
  VMIN : nat;
  VTIME : nat;
  cfsetispeed : termios -> Z -> termios;
  cfsetospeed : termios -> Z -> termios
}.

(** Conversion of an integer value to [tcflag_t], a 32-bit unsigned
    type. *)
Definition to_tcflag (z : Z) : Z := z mod 2 ^ 32.

(** [flags &= ~mask] and [flags |= mask] on a [tcflag_t]. *)
Definition clear_bits (flags mask : Z) : Z :=
  to_tcflag (Z.land flags (Z.lnot mask)).
Definition set_bits (flags mask : Z) : Z :=
  to_tcflag (Z.lor flags mask).

(** [cc[i] = v]. *)
Definition set_cc (cc : nat -> Z) (i : nat) (v : Z) : nat -> Z :=
  fun k => if Nat.eqb k i then v else cc k.

Section SerialParameters.

Context {termios_h : Termios_h}.

(** [ulcd_set_serial_parameters(ulcd)]: [options] is what [tcgetattr]
    left in the automatic variable, the result is what [tcsetattr] is
    given.  The function returns nothing and looks at no result. *)
Definition ulcd_set_serial_parameters (ulcd : ulcd_t) (options : termios)
  : termios :=
  let options := cfsetispeed options (baudrate ulcd) in
  let options := cfsetospeed options (baudrate ulcd) in
  let cflag := clear_bits (c_cflag options) PARENB in
  let cflag := clear_bits cflag CSTOPB in
  let cflag := clear_bits cflag CSIZE in
  let cflag := set_bits cflag CS8 in
  let cflag := set_bits cflag CREAD in
  let lflag :=
    clear_bits (c_lflag options)
               (Z.lor (Z.lor (Z.lor ICANON ECHO) ECHOE) ISIG) in
  let iflag := set_bits (c_iflag options) IGNPAR in
  let iflag := clear_bits iflag (Z.lor (Z.lor IXON IXOFF) IXANY) in
  let oflag := clear_bits (c_oflag options) OPOST in
  let cc := set_cc (c_cc options) VMIN 1 in
  let cc := set_cc cc VTIME 0 in
  mk_termios iflag oflag cflag lflag cc
             (c_ispeed options) (c_ospeed options).

End SerialParameters.

(** The masks and indices of Linux ([asm-generic/termbits.h]), with
    speed functions that keep the speed in the two speed fields. *)
Definition linux_termios_h : Termios_h :=
  {| PARENB := 0x100; CSTOPB := 0x40; CSIZE := 0x30; CS8 := 0x30;
     CREAD := 0x80;
     ICANON := 0x2; ECHO := 0x8; ECHOE := 0x10; ISIG := 0x1;
     IGNPAR := 0x4; IXON := 0x400; IXOFF := 0x1000; IXANY := 0x800;
     OPOST := 0x1;
     VMIN := 6; VTIME := 5;
     cfsetispeed := fun t speed =>
       mk_termios (c_iflag t) (c_oflag t) (c_cflag t) (c_lflag t) (c_cc t)
                  speed (c_ospeed t);
     cfsetospeed := fun t speed =>
       mk_termios (c_iflag t) (c_oflag t) (c_cflag t) (c_lflag t) (c_cc t)
                  (c_ispeed t) speed |}.

(** Settings of a line in canonical mode with echo, seven data bits,
    parity and software flow control. *)
Definition cooked_options : termios :=
  {| c_iflag := 0x1400; c_oflag := 0x5; c_cflag := 0x1A0; c_lflag := 0x1B;
     c_cc := fun _ => 0; c_ispeed := 13; c_ospeed := 13 |}.

(** ** The baud rate table *)

From Stdlib Require Import Sorted.

(** The speed constants of [<termios.h>] that the table names. *)
Inductive speed_t : Type :=
| B110 | B300 | B600 | B1200 | B2400 | B4800 | B9600 | B19200 | B38400
| B57600 | B115200 | B500000.

(** [baud_index]: each entry pairs a baud code of the device with the
    speed constant of the host. *)
Definition baud_index : list (Z * speed_t) :=
  [(0, B110); (1, B300); (2, B600); (3, B1200); (4, B2400); (5, B4800);
   (6, B9600); (8, B19200); (10, B38400); (12, B57600); (13, B115200);
   (18, B500000)].

(** ** Encoder lemmas *)

Lemma store_length mem i v : length (store mem i v) = length mem.
Proof.
  revert i; induction mem as [|b m IH]; intros [|i]; simpl; auto.
Qed.

Lemma store_at mem i v :
  (i < length mem)%nat ->
  store mem i v = firstn i mem ++ v mod 256 :: skipn (S i) mem.
Proof.
  revert i; induction mem as [|b m IH]; intros [|i] Hi; simpl in *;
    try lia; auto.
  rewrite IH by lia. reflexivity.
Qed.

Lemma high_byte v :
  0 <= v < 65536 -> Z.shiftr (Z.land v 0xff00) 8 = v / 256.
Proof.
  intros Hv.
  rewrite Z.shiftr_land.
  change (Z.shiftr 0xff00 8) with (Z.ones 8).
  rewrite Z.land_ones by lia.
  rewrite Z.shiftr_div_pow2 by lia.
  change (2 ^ 8) with 256.
  apply Z.mod_small. split.
  - apply Z.div_pos; lia.
  - apply Z.div_lt_upper_bound; lia.
Qed.

Lemma low_byte v : Z.land v 0x00ff = v mod 256.
Proof.
  change 0x00ff with (Z.ones 8). rewrite Z.land_ones by lia. reflexivity.
Qed.

Lemma shift_mask c : Z.land (Z.shiftl c 8) 0xff00 = (c mod 256) * 256.
Proof.
  change 0xff00 with (Z.shiftl (Z.ones 8) 8).
  rewrite <- Z.shiftl_land, Z.land_ones by lia.
  rewrite Z.shiftl_mul_pow2 by lia. reflexivity.
Qed.

Lemma lor_bytes hi lo :
  0 <= lo < 256 -> Z.lor (hi * 256) lo = hi * 256 + lo.
Proof.
  intros Hlo.
  assert (Hland : Z.land (hi * 256) lo = 0).
  { change 256 with (2 ^ 8). rewrite <- Z.shiftl_mul_pow2 by lia.
    apply Z.bits_inj'; intros n Hn. rewrite Z.land_spec, Z.bits_0.
    destruct (Z.ltb_spec n 8).
    - rewrite Z.shiftl_spec_low by lia. reflexivity.
    - replace lo with (lo mod 2 ^ 8) by (apply Z.mod_small; lia).
      rewrite Z.mod_pow2_bits_high by lia. apply andb_false_r. }
  rewrite <- Z.lxor_lor by exact Hland.
  symmetry. apply Z.add_nocarry_lxor. exact Hland.
Qed.

(** Whatever the signedness of [char], the low eight bits of a loaded
    [char] are the byte it was loaded from. *)
Lemma char_load_low {platform : Platform} b :
  char_load b mod 256 = b mod 256.
Proof.
  unfold char_load. destruct char_signed.
  - rewrite Zminus_mod_idemp_l. f_equal. lia.
  - apply Z.mod_mod. lia.
Qed.

Lemma packed_bytes v :
  packed v =
  [Z.shiftr (Z.land v 0xff00) 8 mod 256; Z.land v 0x00ff mod 256].
Proof. reflexivity. Qed.

Lemma packed_range v :
  0 <= v < 65536 -> packed v = [v / 256; v mod 256].
Proof.
  intros Hv. rewrite packed_bytes, high_byte, low_byte by exact Hv.
  rewrite Z.mod_mod by lia. f_equal.
  apply Z.mod_small. split.
  - apply Z.div_pos; lia.
  - apply Z.div_lt_upper_bound; lia.
Qed.

(** [pack_uint] overwrites the two cells at [off] and [off + 1] and no
    other. *)
Lemma pack_uint_splice dest off v :
  (off + 1 < length dest)%nat ->
  pack_uint dest off v =
  (firstn off dest ++ packed v ++ skipn (off + 2) dest, 2).
Proof.
  intros Hroom. unfold pack_uint. f_equal.
  rewrite (store_at dest off) by lia.
  rewrite store_at.
  2:{ rewrite length_app, length_firstn. cbn [length].
      rewrite length_skipn. lia. }
  assert (Hl : length (firstn off dest) = off)
    by (rewrite length_firstn; lia).
  rewrite firstn_app, Hl, firstn_firstn.
  replace (Nat.min (off + 1) off) with off by lia.
  replace (off + 1 - off)%nat with 1%nat by lia.
  rewrite skipn_app, Hl.
  replace (S (off + 1) - off)%nat with 2%nat by lia.
  rewrite skipn_firstn_comm.
  replace (off - S (off + 1))%nat with 0%nat by lia.
  cbn [firstn app].
  change (skipn 2 (?x :: ?l)) with (skipn 1 l).
  rewrite skipn_skipn.
  replace (1 + S off)%nat with (off + 2)%nat by lia.
  rewrite packed_bytes. rewrite <- app_assoc. reflexivity.
Qed.

Lemma load_splice pre a b post off :
  length pre = off ->
  load (pre ++ a :: b :: post) off = a /\
  load (pre ++ a :: b :: post) (off + 1) = b.
Proof.
  intros <-. unfold load. split.
  - rewrite app_nth2 by lia. rewrite Nat.sub_diag. reflexivity.
  - rewrite app_nth2 by lia.
    replace (length pre + 1 - length pre)%nat with 1%nat by lia.
    reflexivity.
Qed.

Lemma byte_of_div v : 0 <= v < 65536 -> 0 <= v / 256 < 256.
Proof.
  intros Hv. split.
  - apply Z.div_pos; lia.
  - apply Z.div_lt_upper_bound; lia.
Qed.

(** What [pack_uint] leaves in the two cells it writes. *)
Lemma pack_uint_cells dest off v :
  0 <= v < 65536 -> (off + 1 < length dest)%nat ->
  load (fst (pack_uint dest off v)) off = v / 256 /\
  load (fst (pack_uint dest off v)) (off + 1) = v mod 256.
Proof.
  intros Hv Hroom.
  rewrite pack_uint_splice by exact Hroom.
  rewrite packed_range by exact Hv. cbn [fst app].
  apply load_splice. rewrite length_firstn. lia.
Qed.

(** ** Encoder theorems *)

(** C7.  For every 16-bit value [v], [pack_uint] stores the most
    significant byte of [v] ([v / 256]) in the cell its destination
    points at, the least significant byte ([v mod 256]) in the next
    cell, and returns 2. *)
Theorem pack_uint_msb_first (dest : list Z) (off : nat) (v : Z) :
  0 <= v < 65536 ->
  (off + 1 < length dest)%nat ->
  load (fst (pack_uint dest off v)) off = v / 256 /\
  load (fst (pack_uint dest off v)) (off + 1) = v mod 256 /\
  snd (pack_uint dest off v) = 2.
Proof.
  intros Hv Hroom.
  destruct (pack_uint_cells dest off v Hv Hroom) as [Hhi Hlo].
  repeat split; assumption.
Qed.

Lemma pack_uint_msb_first_witness :
  load (fst (pack_uint [0; 0; 0] 1 0xBEEF)) 1 = 0xBEEF / 256 /\
  load (fst (pack_uint [0; 0; 0] 1 0xBEEF)) (1 + 1) = 0xBEEF mod 256 /\
  snd (pack_uint [0; 0; 0] 1 0xBEEF) = 2.
Proof.
  apply (pack_uint_msb_first [0; 0; 0] 1 0xBEEF); simpl; lia.
Defined.

(** C3.  For every 16-bit value [v], and whether [char] is signed or
    not, unpacking the two bytes that [pack_uint] wrote for [v] gives
    [v] back. *)
Theorem unpack_pack_roundtrip (platform : Platform) (dest : list Z)
        (off : nat) (v : Z) :
  0 <= v < 65536 ->
  (off + 1 < length dest)%nat ->
  unpack_uint (fst (pack_uint dest off v)) off = v.
Proof.
  intros Hv Hroom.
  destruct (pack_uint_cells dest off v Hv Hroom) as [Hhi Hlo].
  unfold unpack_uint. rewrite Hhi, Hlo.
  rewrite shift_mask, low_byte, !char_load_low.
  pose proof (byte_of_div v Hv) as Hd.
  rewrite (Z.mod_small (v / 256)) by lia.
  rewrite Z.mod_mod by lia.
  rewrite lor_bytes by (apply Z.mod_pos_bound; lia).
  unfold to_param. change (2 ^ 16) with 65536.
  rewrite Z.mod_small; [|pose proof (Z.div_mod v 256); lia].
  pose proof (Z.div_mod v 256). lia.
Qed.

Lemma unpack_pack_roundtrip_witness :
  unpack_uint (platform := signed_char_platform)
              (fst (pack_uint [0; 0] 0 0xBEEF)) 0 = 0xBEEF /\
  unpack_uint (platform := unsigned_char_platform)
              (fst (pack_uint [0; 0] 0 0xBEEF)) 0 = 0xBEEF.
Proof.
  split.
  - apply (unpack_pack_roundtrip signed_char_platform [0; 0] 0 0xBEEF);
      simpl; lia.
  - apply (unpack_pack_roundtrip unsigned_char_platform [0; 0] 0 0xBEEF);
      simpl; lia.
Defined.

Lemma pack_uints_loop_splice ps :
  forall buffer off,
    Forall (fun v => 0 <= v < 65536) ps ->
    (off + 2 * length ps <= length buffer)%nat ->
    pack_uints_loop (length ps) buffer off ps =
    Some (firstn off buffer ++ concat (map packed ps)
            ++ skipn (off + 2 * length ps) buffer).
Proof.
  induction ps as [|v ps IH]; intros buffer off Hps Hroom.
  - cbn [length pack_uints_loop map concat app].
    rewrite Nat.mul_0_r, Nat.add_0_r, firstn_skipn. reflexivity.
  - inversion Hps as [|? ? Hv Hps']; subst.
    cbn [length] in Hroom.
    cbn [length pack_uints_loop map concat].
    unfold to_param. change (2 ^ 16) with 65536.
    rewrite Z.mod_small by exact Hv.
    rewrite pack_uint_splice by lia. cbn [fst].
    assert (Hpk : length (packed v) = 2%nat) by reflexivity.
    assert (Hpre : length (firstn off buffer) = off)
      by (rewrite length_firstn; lia).
    rewrite IH; [|exact Hps'|].
    2:{ rewrite !length_app, Hpre, Hpk, length_skipn. lia. }
    f_equal.
    rewrite (app_assoc (firstn off buffer) (packed v)).
    assert (Hpre2 : length (firstn off buffer ++ packed v) = (off + 2)%nat)
      by (rewrite length_app, Hpre, Hpk; reflexivity).
    rewrite firstn_app, Hpre2, Nat.sub_diag. cbn [firstn].
    rewrite app_nil_r, firstn_all2 by lia.
    rewrite skipn_app, Hpre2.
    rewrite (skipn_all2 (firstn off buffer ++ packed v)) by lia.
    cbn [app]. rewrite skipn_skipn.
    replace (off + 2 + 2 * length ps - (off + 2) + (off + 2))%nat
      with (off + 2 * S (length ps))%nat by lia.
    rewrite <- !app_assoc. reflexivity.
Qed.

(** C8.  For every sequence [ps] of 16-bit parameters, [pack_uints]
    called with their count leaves, from the cell its buffer points at,
    the concatenation of what [pack_uint] produces for each parameter in
    order, touches nothing else, and returns twice the count. *)
Theorem pack_uints_concat (buffer : list Z) (off : nat) (ps : list Z) :
  Forall (fun v => 0 <= v < 65536) ps ->
  (off + 2 * length ps <= length buffer)%nat ->
  pack_uints buffer off (Z.of_nat (length ps)) ps =
  Some (firstn off buffer ++ concat (map packed ps)
          ++ skipn (off + 2 * length ps) buffer,
        2 * Z.of_nat (length ps)).
Proof.
  intros Hps Hroom. unfold pack_uints.
  rewrite Nat2Z.id, pack_uints_loop_splice by assumption.
  f_equal. f_equal. lia.
Qed.

Lemma pack_uints_concat_witness :
  pack_uints [6; 0; 0; 0; 0; 0; 0; 9] 1 3 [0x0102; 0xFFFE; 0x8000] =
  Some ([6] ++ (packed 0x0102 ++ packed 0xFFFE ++ packed 0x8000 ++ [])
            ++ [9],
        6).
Proof.
  apply (pack_uints_concat [6; 0; 0; 0; 0; 0; 0; 9] 1
                           [0x0102; 0xFFFE; 0x8000]).
  - repeat constructor; lia.
  - simpl; lia.
Defined.

(** ** The error setter *)

Lemma not_in_firstn {A} (x : A) n l : ~ In x l -> ~ In x (firstn n l).
Proof.
  revert n; induction l as [|a l IH]; intros [|n] Hl; simpl; auto.
  intros [->|Hin].
  - apply Hl. left. reflexivity.
  - apply (IH n); [|exact Hin]. intros H. apply Hl. right. exact H.
Qed.

(** A NUL-free text followed by a NUL reads back as that text. *)
Lemma c_str_terminated text rest :
  ~ In zero text -> c_str (text ++ zero :: rest) = string_of_list_ascii text.
Proof.
  induction text as [|c text IH]; intros Hnul; simpl.
  - reflexivity.
  - destruct (Ascii.eqb_spec c zero) as [->|_].
    + exfalso. apply Hnul. left. reflexivity.
    + rewrite IH; [reflexivity|]. intros H. apply Hnul. right. exact H.
Qed.

Lemma length_string_of_list_ascii l :
  String.length (string_of_list_ascii l) = length l.
Proof. induction l; simpl; congruence. Qed.

Lemma vsnprintf_c_str buf size text :
  (0 < size)%nat ->
  ~ In zero (list_ascii_of_string text) ->
  c_str (vsnprintf buf size text) =
  string_of_list_ascii (firstn (size - 1) (list_ascii_of_string text)).
Proof.
  intros Hsize Hnul. destruct size as [|m]; [lia|].
  unfold vsnprintf. replace (S m - 1)%nat with m by lia.
  apply c_str_terminated, not_in_firstn, Hnul.
Qed.

Lemma vsnprintf_length buf size text :
  length buf = size -> length (vsnprintf buf size text) = size.
Proof.
  intros Hlen. destruct size as [|m]; [exact Hlen|].
  unfold vsnprintf.
  rewrite length_app. cbn [length]. rewrite length_skipn, length_firstn, Hlen.
  lia.
Qed.

(** A text that fits is stored whole. *)
Lemma vsnprintf_fits buf size text :
  (String.length text < size)%nat ->
  ~ In zero (list_ascii_of_string text) ->
  c_str (vsnprintf buf size text) = text.
Proof.
  intros Hfit Hnul. rewrite vsnprintf_c_str by (assumption || lia).
  rewrite firstn_all2.
  - apply string_of_list_ascii_of_string.
  - rewrite <- (length_string_of_list_ascii (list_ascii_of_string text)).
    rewrite string_of_list_ascii_of_string. lia.
Qed.

(** C9.  [ulcd_error] returns the code it was given and records it on
    the handle.  With a NULL message the stored message becomes the
    empty string; with a message, what is stored is the formatted text
    cut to [STRBUFSIZE - 1] characters, so that it fits the buffer of
    [STRBUFSIZE] characters with its terminator.  Neither depends on the
    code or the message the handle held before, and the other fields of
    the handle are left alone. *)
Theorem ulcd_error_overwrites (header : Header) (ulcd : ulcd_t) (code : Z)
        (msg : option string) :
  (0 < STRBUFSIZE)%nat ->
  length (err ulcd) = STRBUFSIZE ->
  (forall text, msg = Some text -> ~ In zero (list_ascii_of_string text)) ->
  fst (ulcd_error ulcd code msg) = code /\
  error (snd (ulcd_error ulcd code msg)) = code /\
  c_str (err (snd (ulcd_error ulcd code msg))) =
    match msg with
    | None => EmptyString
    | Some text =>
        string_of_list_ascii
          (firstn (STRBUFSIZE - 1) (list_ascii_of_string text))
    end /\
  (String.length (c_str (err (snd (ulcd_error ulcd code msg))))
     < STRBUFSIZE)%nat /\
  length (err (snd (ulcd_error ulcd code msg))) = STRBUFSIZE /\
  fd (snd (ulcd_error ulcd code msg)) = fd ulcd /\
  device (snd (ulcd_error ulcd code msg)) = device ulcd /\
  baudrate (snd (ulcd_error ulcd code msg)) = baudrate ulcd.
Proof.
  intros Hsize Hlen Hnul.
  assert (Hstr :
            c_str (err (snd (ulcd_error ulcd code msg))) =
            match msg with
            | None => EmptyString
            | Some text =>
                string_of_list_ascii
                  (firstn (STRBUFSIZE - 1) (list_ascii_of_string text))
            end).
  { destruct msg as [text|]; cbn [ulcd_error snd err].
    - apply vsnprintf_c_str; [exact Hsize|]. apply Hnul. reflexivity.
    - destruct (err ulcd); reflexivity. }
  repeat split; try reflexivity.
  - exact Hstr.
  - rewrite Hstr. destruct msg as [text|]; cbn [String.length]; [|lia].
    rewrite length_string_of_list_ascii, length_firstn. lia.
  - destruct msg as [text|]; cbn [ulcd_error snd err].
    + apply vsnprintf_length. exact Hlen.
    + destruct (err ulcd); [exact Hlen|]. exact Hlen.
Qed.

(** A text is NUL-free when evaluation finds no NUL in it. *)
Lemma nul_free_by_eval text :
  forallb (fun c => negb (Ascii.eqb c zero)) (list_ascii_of_string text)
  = true ->
  ~ In zero (list_ascii_of_string text).
Proof.
  intros Hall Hin.
  rewrite forallb_forall in Hall. specialize (Hall zero Hin).
  rewrite Ascii.eqb_refl in Hall. discriminate.
Qed.

Lemma ulcd_error_overwrites_witness :
  let after :=
    ulcd_error (header := tiny_header)
               (snd (ulcd_error (header := tiny_header)
                                (ulcd_new (header := tiny_header)) 1
                                (Some "NAK"%string)))
               5 (Some "Unable to open"%string) in
  fst after = 5 /\
  error (snd after) = 5 /\
  c_str (err (snd after)) = "Unable "%string /\
  (String.length (c_str (err (snd after))) < 8)%nat /\
  length (err (snd after)) = 8%nat /\
  fd (snd after) = -1 /\
  device (snd after) = EmptyString /\
  baudrate (snd after) = 0.
Proof.
  apply (ulcd_error_overwrites tiny_header
           (snd (ulcd_error (header := tiny_header)
                                (ulcd_new (header := tiny_header)) 1
                            (Some "NAK"%string)))
           5 (Some "Unable to open"%string)).
  - simpl; lia.
  - reflexivity.
  - intros text [= <-]. apply nul_free_by_eval. reflexivity.
Defined.

(** ** Lemmas on the exchange protocol *)

Local Open Scope ulcd_scope.

Lemma to_size_t_range z : 0 <= to_size_t z < size_t_modulus.
Proof. unfold to_size_t. apply Z.mod_pos_bound. reflexivity. Qed.

(** An unsigned quantity is never negative: the test the two loops make
    on the result of [write] and [read] never succeeds. *)
Lemma size_t_never_negative z : (to_size_t z <? 0) = false.
Proof. apply Z.ltb_ge. apply to_size_t_range. Qed.

Lemma to_size_t_small z : 0 <= z < size_t_modulus -> to_size_t z = z.
Proof. intros Hz. apply Z.mod_small. exact Hz. Qed.

Section ProtocolLemmas.

Context {platform : Platform} {header : Header}.

(** Whenever the loop of [ulcd_send] ends, it ends with [ERROK] and
    has not touched the handle. *)
Lemma send_loop_never_fails fuel data size :
  forall total s r s',
    send_loop fuel data size total s = Some (r, s') ->
    r = ERROK /\ snd s' = snd s.
Proof.
  induction fuel as [|fuel IH]; intros total [w u] r s' Hrun;
    cbn [send_loop] in Hrun;
    destruct (total <? to_size_t size).
  - discriminate.
  - inversion Hrun. split; reflexivity.
  - unfold bind, sys_write in Hrun.
    destruct (write_script w) as [|[e|k] rest]; [discriminate| |];
      rewrite size_t_never_negative in Hrun;
      apply IH in Hrun; exact Hrun.
  - inversion Hrun. split; reflexivity.
Qed.

Lemma ulcd_send_never_fails data size s r s' :
  ulcd_send data size s = Some (r, s') -> r = ERROK /\ snd s' = snd s.
Proof. unfold ulcd_send. apply send_loop_never_fails. Qed.

(** The scripts shrink by one event for each iteration, so the loop's
    result does not depend on [fuel] once it covers the script. *)
Lemma send_loop_fuel fuel data size :
  forall total s,
    (length (write_script (fst s)) <= fuel)%nat ->
    send_loop fuel data size total s =
    send_loop (length (write_script (fst s))) data size total s.
Proof.
  induction fuel as [|fuel IH]; intros total [w u] Hfuel; cbn [fst] in *.
  - replace (length (write_script w)) with 0%nat by lia. reflexivity.
  - destruct (write_script w) as [|ev rest] eqn:Hscript.
    + cbn [length send_loop].
      destruct (total <? to_size_t size); [|reflexivity].
      unfold bind, sys_write. rewrite Hscript. reflexivity.
    + cbn [length send_loop].
      destruct (total <? to_size_t size); [|reflexivity].
      unfold bind, sys_write. rewrite Hscript.
      cbn [length] in Hfuel.
      destruct ev as [e|k]; rewrite size_t_never_negative;
        rewrite IH by (cbn [fst write_script]; lia); reflexivity.
Qed.

End ProtocolLemmas.

(** Comparing a loaded [char] with a constant below 128 compares the
    byte, whatever the signedness of [char]. *)
Lemma char_load_eqb {platform : Platform} b k :
  0 <= b < 256 -> 0 <= k < 128 -> (char_load b =? k) = (b =? k).
Proof.
  intros Hb Hk. unfold char_load.
  destruct char_signed.
  - destruct (Z_lt_ge_dec b 128) as [Hlow|Hhigh].
    + rewrite Z.mod_small by lia. f_equal. lia.
    + replace ((b + 128) mod 256) with (b - 128).
      * destruct (Z.eqb_spec (b - 128 - 128) k), (Z.eqb_spec b k);
          try reflexivity; lia.
      * apply Z.mod_unique with (q := 1); lia.
  - rewrite Z.mod_small by lia. reflexivity.
Qed.

Section RecvAck.

Context {platform : Platform} {header : Header}.

(** [ulcd_recv_ack] run on a read script that has an event left. *)
Lemma ulcd_recv_ack_run w u ev rest :
  read_script w = ev :: rest ->
  ulcd_recv_ack (w, u) =
  let r := char_load (reply_byte w ev) in
  if r =? ACK then Some (ERROK, (after_read w ev rest, u))
  else if r =? NAK then
    Some (ERRNAK,
          (after_read w ev rest,
           snd (ulcd_error u ERRNAK
                  (Some "Device sent NAK instead of ACK"%string))))
  else
    Some (ERRUNKNOWN,
          (after_read w ev rest,
           snd (ulcd_error u ERRUNKNOWN
                  (Some "Device sent unknown reply instead of ACK"%string)))).
Proof.
  intros Hscript.
  unfold ulcd_recv_ack, bind, get_uninit, sys_read. cbn [fst].
  rewrite Hscript. change (Z.to_nat 1) with 1%nat.
  destruct ev as [e|[|b bs]]; cbn [reply_byte hd firstn]; cbv zeta;
    unfold after_read;
    (destruct (_ =? ACK); [reflexivity|]);
    (destruct (_ =? NAK); reflexivity).
Qed.

(** A failing [ulcd_recv_ack] leaves the code it returns on the
    handle. *)
Lemma ulcd_recv_ack_code s a s' :
  ulcd_recv_ack s = Some (a, s') ->
  (a = ERROK /\ snd s' = snd s) \/
  ((a = ERRNAK \/ a = ERRUNKNOWN) /\ error (snd s') = a).
Proof.
  destruct s as [w u].
  destruct (read_script w) as [|ev rest] eqn:Hscript.
  - unfold ulcd_recv_ack, bind, get_uninit, sys_read. cbn [fst].
    rewrite Hscript. discriminate.
  - rewrite (ulcd_recv_ack_run w u ev rest Hscript). cbv zeta.
    repeat match goal with
           | |- context [if ?c then _ else _] => destruct c
           end; intros [= <- <-]; cbn [snd ulcd_error error]; auto.
Qed.

End RecvAck.

(** [write_at] within bounds: what was written, and what lies beyond. *)
Lemma write_at_within mem off bs k :
  (off + length bs <= k)%nat ->
  (k <= length mem)%nat ->
  firstn (off + length bs) (write_at mem off bs) = firstn off mem ++ bs /\
  skipn k (write_at mem off bs) = skipn k mem /\
  length (write_at mem off bs) = length mem.
Proof.
  intros Hk Hmem. unfold write_at.
  assert (Hpre : length (firstn off mem) = off)
    by (rewrite length_firstn; lia).
  assert (Hpre2 : length (firstn off mem ++ bs) = (off + length bs)%nat)
    by (rewrite length_app, Hpre; reflexivity).
  rewrite !app_assoc. repeat split.
  - rewrite firstn_app, Hpre2, Nat.sub_diag. cbn [firstn].
    rewrite app_nil_r. apply firstn_all2. lia.
  - rewrite skipn_app, Hpre2.
    rewrite (skipn_all2 (firstn off mem ++ bs)) by lia.
    cbn [app]. rewrite skipn_skipn. f_equal. lia.
  - rewrite length_app, Hpre2, length_skipn. lia.
Qed.

Lemma unread_all count bs rest :
  (length bs <= count)%nat -> unread count bs rest = rest.
Proof.
  intros Hall. unfold unread. rewrite skipn_all2 by exact Hall. reflexivity.
Qed.

Lemma read_weight_app script1 script2 :
  read_weight (script1 ++ script2) =
  (read_weight script1 + read_weight script2)%nat.
Proof.
  induction script1 as [|[e|bs] script1 IH]; cbn [app read_weight];
    try rewrite IH; lia.
Qed.

Lemma read_weight_chunks chunks :
  (length chunks <= read_weight (map ReadChunk chunks))%nat.
Proof.
  induction chunks as [|c chunks IH]; cbn [map length read_weight]; lia.
Qed.

Section DataLoop.

Context {platform : Platform} {header : Header}.

(** Whenever the read loop ends, it ends with [ERROK] and has not
    touched the handle. *)
Lemma data_loop_never_fails fuel datasize :
  forall buffer total s r buffer' s',
    data_loop fuel buffer datasize total s = Some ((r, buffer'), s') ->
    r = ERROK /\ snd s' = snd s.
Proof.
  induction fuel as [|fuel IH]; intros buffer total [w u] r buffer' s' Hrun;
    cbn [data_loop] in Hrun;
    destruct (total <? to_size_t datasize).
  - discriminate.
  - inversion Hrun. split; reflexivity.
  - unfold bind, sys_read in Hrun.
    destruct (read_script w) as [|[e|bs] rest]; [discriminate| |];
      rewrite size_t_never_negative in Hrun;
      apply IH in Hrun; exact Hrun.
  - inversion Hrun. split; reflexivity.
Qed.

(** The read loop over a script that starts with the non-empty chunks
    [chunks], which together make up what is still missing: each is
    taken whole, one call apiece. *)
Lemma data_loop_chunks chunks :
  forall fuel buffer t w u rest n,
    0 <= n < size_t_modulus ->
    read_script w = map ReadChunk chunks ++ rest ->
    Forall (fun c => c <> []) chunks ->
    (t + length (concat chunks))%nat = Z.to_nat n ->
    (length chunks <= fuel)%nat ->
    (Z.to_nat n <= length buffer)%nat ->
    data_loop fuel buffer n (Z.of_nat t) (w, u) =
    Some ((ERROK,
           firstn t buffer ++ concat chunks ++ skipn (Z.to_nat n) buffer),
          (after_chunks w chunks rest, u)).
Proof.
  induction chunks as [|c chunks IH];
    intros fuel buffer t w u rest n Hn Hscript Hne Hsum Hfuel Hroom.
  - cbn [concat length map app] in *.
    assert (Hcond : (Z.of_nat t <? to_size_t n) = false).
    { rewrite to_size_t_small by exact Hn. apply Z.ltb_ge. lia. }
    destruct fuel; cbn [data_loop]; rewrite Hcond; unfold ret.
    + replace (Z.to_nat n) with t by lia. rewrite firstn_skipn.
      destruct w; cbn in *; subst; reflexivity.
    + replace (Z.to_nat n) with t by lia. rewrite firstn_skipn.
      destruct w; cbn in *; subst; reflexivity.
  - inversion Hne as [|? ? Hc Hne']; subst.
    cbn [concat length map app] in *. rewrite length_app in Hsum.
    assert (Hlen : (0 < length c)%nat)
      by (destruct c; [contradiction|cbn; lia]).
    assert (Hcond : (Z.of_nat t <? to_size_t n) = true).
    { rewrite to_size_t_small by exact Hn. apply Z.ltb_lt. lia. }
    destruct fuel as [|fuel]; [lia|].
    cbn [data_loop]. rewrite Hcond.
    unfold bind at 1. unfold sys_read. rewrite Hscript.
    rewrite (to_size_t_small n) by exact Hn.
    rewrite (to_size_t_small (n - Z.of_nat t)) by lia.
    rewrite firstn_all2 by lia.
    rewrite unread_all by lia.
    rewrite size_t_never_negative.
    rewrite (to_size_t_small (Z.of_nat (length c)))
      by (unfold size_t_modulus in *; lia).
    rewrite (to_size_t_small (Z.of_nat t + Z.of_nat (length c)))
      by (unfold size_t_modulus in *; lia).
    rewrite <- Nat2Z.inj_add, Nat2Z.id.
    destruct (write_at_within buffer t c (Z.to_nat n))
      as (Hfirst & Hskip & Hlength); [lia|lia|].
    rewrite (IH fuel _ (t + length c)%nat _ u rest n);
      try assumption; try (cbn; lia); try reflexivity.
    rewrite Hfirst, Hskip, <- !app_assoc.
    unfold after_chunks. cbn.
    do 3 f_equal. f_equal. lia.
Qed.

End DataLoop.

Section Composition.

Context {platform : Platform} {header : Header}.

(** A code other than [ERROK] that the body of [ulcd_send_recv_ack]
    returns was read from the handle. *)
Lemma send_recv_ack_with_code send_step s x s1 :
  send_recv_ack_with send_step s = Some (x, s1) ->
  x = ERROK \/ x = error (snd s1).
Proof.
  unfold send_recv_ack_with, bind.
  destruct (send_step s) as [[r s0]|]; [|discriminate].
  destruct (negb (r =? 0)).
  - intros [= <- <-]. right. reflexivity.
  - destruct (ulcd_recv_ack s0) as [[a s2]|]; [|discriminate].
    destruct (negb (a =? 0)).
    + intros [= <- <-]. right. reflexivity.
    + intros [= <- <-]. left. reflexivity.
Qed.

(** What [ulcd_send_recv_ack] returns and leaves on the handle. *)
Lemma ulcd_send_recv_ack_code data size s x s1 :
  ERROK = 0 -> ERRNAK <> 0 -> ERRUNKNOWN <> 0 ->
  ulcd_send_recv_ack data size s = Some (x, s1) ->
  (x = ERROK /\ snd s1 = snd s) \/
  ((x = ERRNAK \/ x = ERRUNKNOWN) /\ error (snd s1) = x).
Proof.
  intros Hok Hnak Hunk.
  unfold ulcd_send_recv_ack, send_recv_ack_with, bind.
  destruct (ulcd_send data size s) as [[r s0]|] eqn:Hsend; [|discriminate].
  destruct (ulcd_send_never_fails _ _ _ _ _ Hsend) as [-> Hsame].
  rewrite Hok. cbn [Z.eqb negb].
  destruct (ulcd_recv_ack s0) as [[a s2]|] eqn:Hrecv; [|discriminate].
  destruct (ulcd_recv_ack_code _ _ _ Hrecv) as [[-> Hu]|[Ha He]].
  - rewrite Hok. cbn [Z.eqb negb]. intros [= <- <-].
    left. split; [reflexivity|congruence].
  - assert (Hnz : (a =? 0) = false)
      by (apply Z.eqb_neq; destruct Ha; subst; assumption).
    rewrite Hnz. cbn [negb]. unfold get_error.
    intros [= <- <-]. right. rewrite He. split; [exact Ha|reflexivity].
Qed.

End Composition.

(** ** The loops' fuel *)

Lemma read_weight_unread count bs rest :
  (1 <= count)%nat ->
  (read_weight (unread count bs rest) <= length bs + read_weight rest)%nat.
Proof.
  intros Hcount. unfold unread.
  destruct (skipn count bs) as [|b more] eqn:Hleft.
  - lia.
  - cbn [read_weight].
    assert (Hlen : length (skipn count bs) = length (b :: more))
      by (rewrite Hleft; reflexivity).
    rewrite length_skipn in Hlen. cbn [length] in *. lia.
Qed.

Section Adequacy.

Context {platform : Platform} {header : Header}.

(** The result of the read loop does not depend on the fuel once the
    fuel covers what the read script can answer: [None] then means that
    the script ran out, that is, that a [read] never returned. *)
Lemma data_loop_fuel fuel1 :
  forall fuel2 buffer datasize total s,
    0 <= total ->
    (read_weight (read_script (fst s)) <= fuel1)%nat ->
    (read_weight (read_script (fst s)) <= fuel2)%nat ->
    data_loop fuel1 buffer datasize total s =
    data_loop fuel2 buffer datasize total s.
Proof.
  induction fuel1 as [|fuel1 IH];
    intros [|fuel2] buffer datasize total [w u] Htotal H1 H2;
    cbn [fst] in *; cbn [data_loop];
    destruct (Z.ltb_spec total (to_size_t datasize)) as [Hcond|_];
    try reflexivity.
  - destruct (read_script w) as [|[e|bs] rest] eqn:Hscript;
      cbn [read_weight] in *; try lia.
    unfold bind, sys_read. rewrite Hscript. reflexivity.
  - destruct (read_script w) as [|[e|bs] rest] eqn:Hscript;
      cbn [read_weight] in *; try lia.
    unfold bind, sys_read. rewrite Hscript. reflexivity.
  - unfold bind, sys_read.
    destruct (read_script w) as [|[e|bs] rest] eqn:Hscript;
      cbn [read_weight] in *; [reflexivity| |];
      rewrite size_t_never_negative.
    + apply IH; cbn [fst read_script]; try lia. apply to_size_t_range.
    + pose proof (to_size_t_range datasize) as Hd.
      assert (Hcount :
                (1 <= Z.to_nat (to_size_t (to_size_t datasize - total)))%nat).
      { rewrite to_size_t_small by lia. lia. }
      pose proof (read_weight_unread _ bs rest Hcount).
      apply IH; cbn [fst read_script]; try lia. apply to_size_t_range.
Qed.

(** [ulcd_send_recv_ack_data] never returns only when a call of the
    transport never returns: its loop, given more fuel, does the same. *)
Lemma data_loop_enough_fuel fuel buffer datasize s :
  (read_weight (read_script (fst s)) <= fuel)%nat ->
  data_loop fuel buffer datasize 0 s =
  data_loop (read_weight (read_script (fst s))) buffer datasize 0 s.
Proof.
  intros Hfuel. apply data_loop_fuel; lia.
Qed.

End Adequacy.

(** ** Partial writes *)

Lemma concat_slices ks :
  forall data, concat (slices data ks) = firstn (list_sum ks) data.
Proof.
  induction ks as [|k ks IH]; intros data; cbn [slices concat].
  - reflexivity.
  - change (list_sum (k :: ks)) with (k + list_sum ks)%nat.
    rewrite IH. rewrite <- (firstn_skipn k data) at 3.
    rewrite firstn_app, firstn_firstn, length_firstn.
    destruct (Nat.le_gt_cases k (length data)) as [Hk|Hk].
    + replace (Nat.min (k + list_sum ks) k) with k by lia.
      replace (k + list_sum ks - Nat.min k (length data))%nat
        with (list_sum ks) by lia.
      reflexivity.
    + rewrite (skipn_all2 data) by lia. rewrite !firstn_nil, !app_nil_r.
      rewrite !firstn_all2 by lia. reflexivity.
Qed.

Section PartialWrites.

Context {platform : Platform} {header : Header}.

(** The write loop over a script that starts with the events
    [WriteOk k] for [k] in [ks], each taking at least one byte and all
    together what is still to be sent: every call hands over the next
    slice, and the loop ends with [ERROK]. *)
Lemma send_loop_accumulates ks :
  forall fuel data size t w u rest,
    0 <= size < 2 ^ 31 ->
    write_script w = map WriteOk ks ++ rest ->
    Forall (fun k => (1 <= k)%nat) ks ->
    (t + list_sum ks)%nat = Z.to_nat size ->
    (length ks <= fuel)%nat ->
    send_loop fuel data size (Z.of_nat t) (w, u) =
    Some (ERROK,
          (mk_world (open_script w) rest (read_script w)
                    (written w ++ slices (skipn t data) ks)
                    (read_calls w) (errno w) (uninit w), u)).
Proof.
  induction ks as [|k ks IH];
    intros fuel data size t w u rest Hsize Hscript Hks Hsum Hfuel;
    assert (Hmod : 2 ^ 31 < size_t_modulus) by reflexivity;
    cbn [map app length slices] in *.
  - change (list_sum []) with 0%nat in Hsum.
    assert (Hcond : (Z.of_nat t <? to_size_t size) = false).
    { rewrite to_size_t_small by lia. apply Z.ltb_ge. lia. }
    destruct fuel; cbn [send_loop]; rewrite Hcond; unfold ret;
      rewrite app_nil_r; destruct w; cbn in *; subst; reflexivity.
  - change (list_sum (k :: ks)) with (k + list_sum ks)%nat in Hsum.
    inversion Hks as [|? ? Hk Hks']; subst.
    assert (Hcond : (Z.of_nat t <? to_size_t size) = true).
    { rewrite to_size_t_small by lia. apply Z.ltb_lt. lia. }
    destruct fuel as [|fuel]; [lia|].
    cbn [send_loop]. rewrite Hcond.
    unfold bind at 1. unfold sys_write. rewrite Hscript.
    rewrite (to_size_t_small size) by lia.
    rewrite (to_size_t_small (size - Z.of_nat t)) by lia.
    replace (Nat.min k (Z.to_nat (size - Z.of_nat t))) with k by lia.
    rewrite size_t_never_negative.
    rewrite (to_size_t_small (Z.of_nat k)) by lia.
    rewrite (to_size_t_small (Z.of_nat t + Z.of_nat k)) by lia.
    rewrite <- Nat2Z.inj_add, Nat2Z.id.
    rewrite (IH fuel data size (t + k)%nat _ u rest);
      try assumption; try (cbn; lia); try reflexivity.
    cbn [open_script read_script written read_calls errno uninit].
    rewrite <- app_assoc, skipn_skipn. cbn [app].
    replace (k + t)%nat with (t + k)%nat by lia. reflexivity.
Qed.

(** [ulcd_send] on a transport that takes the buffer in the pieces
    [ks]: it returns [ERROK], the handle is untouched, and the slices
    written make up the first [size] bytes of [data]. *)
Lemma ulcd_send_accumulates data size ks w u rest :
  0 <= size < 2 ^ 31 ->
  write_script w = map WriteOk ks ++ rest ->
  Forall (fun k => (1 <= k)%nat) ks ->
  list_sum ks = Z.to_nat size ->
  ulcd_send data size (w, u) =
  Some (ERROK,
        (mk_world (open_script w) rest (read_script w)
                  (written w ++ slices data ks)
                  (read_calls w) (errno w) (uninit w), u)) /\
  concat (slices data ks) = firstn (Z.to_nat size) data.
Proof.
  intros Hsize Hscript Hks Hsum. split.
  - unfold ulcd_send. cbn [fst].
    assert (Hloop :=
              send_loop_accumulates ks (length (write_script w)) data size
                                    0 w u rest).
    cbn [Z.of_nat skipn] in Hloop. apply Hloop; try assumption.
    rewrite Hscript, length_app, length_map. lia.
  - rewrite concat_slices, Hsum. reflexivity.
Qed.

End PartialWrites.

(** ** The acknowledgment *)

(** C1, as amended.  When the one-byte read delivers byte [b] and the
    message buffer has room for the texts: if [b] is ACK (0x06),
    [ulcd_recv_ack] returns [ERROK] and leaves the handle alone; if [b]
    is NAK (0x15) it returns [ERRNAK], which it records on the handle
    with the message "Device sent NAK instead of ACK"; for any other
    byte it returns [ERRUNKNOWN], recorded with the message "Device sent
    unknown reply instead of ACK" (both messages start with a capital
    letter). *)
Theorem recv_ack_trichotomy (platform : Platform) (header : Header)
        (w : world) (u : ulcd_t) (b : Z) (more : list Z)
        (rest : list read_event) :
  0 <= b < 256 ->
  read_script w = ReadChunk (b :: more) :: rest ->
  (40 < STRBUFSIZE)%nat ->
  (b = ACK ->
   ulcd_recv_ack (w, u) =
   Some (ERROK, (after_read w (ReadChunk (b :: more)) rest, u))) /\
  (b = NAK ->
   exists u',
     ulcd_recv_ack (w, u) =
     Some (ERRNAK, (after_read w (ReadChunk (b :: more)) rest, u')) /\
     error u' = ERRNAK /\
     c_str (err u') = "Device sent NAK instead of ACK"%string) /\
  (b <> ACK -> b <> NAK ->
   exists u',
     ulcd_recv_ack (w, u) =
     Some (ERRUNKNOWN, (after_read w (ReadChunk (b :: more)) rest, u')) /\
     error u' = ERRUNKNOWN /\
     c_str (err u') = "Device sent unknown reply instead of ACK"%string).
Proof.
  intros Hb Hscript Hroom.
  rewrite (ulcd_recv_ack_run w u _ rest Hscript). cbv zeta.
  cbn [reply_byte].
  rewrite !char_load_eqb by (unfold ACK, NAK; lia).
  split; [|split].
  - intros ->. reflexivity.
  - intros ->. change (NAK =? ACK) with false. rewrite Z.eqb_refl.
    eexists. split; [reflexivity|]. split; [reflexivity|].
    cbn [ulcd_error snd err].
    apply vsnprintf_fits; [cbn [String.length]; lia|].
    apply nul_free_by_eval. reflexivity.
  - intros Hack Hnak.
    destruct (Z.eqb_spec b ACK) as [|_]; [contradiction|].
    destruct (Z.eqb_spec b NAK) as [|_]; [contradiction|].
    eexists. split; [reflexivity|]. split; [reflexivity|].
    cbn [ulcd_error snd err].
    apply vsnprintf_fits; [cbn [String.length]; lia|].
    apply nul_free_by_eval. reflexivity.
Qed.

Lemma recv_ack_trichotomy_witness :
  let w := fresh_world [] [ReadChunk [NAK]] in
  (NAK = ACK ->
   ulcd_recv_ack (platform := signed_char_platform)
                 (header := sample_header) (w, new_handle) =
   Some (0, (after_read w (ReadChunk [NAK]) [], new_handle))) /\
  (NAK = NAK ->
   exists u',
     ulcd_recv_ack (platform := signed_char_platform)
                   (header := sample_header) (w, new_handle) =
     Some (1, (after_read w (ReadChunk [NAK]) [], u')) /\
     error u' = 1 /\
     c_str (err u') = "Device sent NAK instead of ACK"%string) /\
  (NAK <> ACK -> NAK <> NAK ->
   exists u',
     ulcd_recv_ack (platform := signed_char_platform)
                   (header := sample_header) (w, new_handle) =
     Some (2, (after_read w (ReadChunk [NAK]) [], u')) /\
     error u' = 2 /\
     c_str (err u') = "Device sent unknown reply instead of ACK"%string).
Proof.
  apply (recv_ack_trichotomy signed_char_platform sample_header
           (fresh_world [] [ReadChunk [NAK]]) new_handle NAK [] []).
  - unfold NAK; lia.
  - reflexivity.
  - simpl; lia.
Defined.

(** C1 as stated fails: the message recorded for a NAK is not the lower
    case text "device sent NAK instead of ACK". *)
Lemma recv_ack_message_cex :
  exists s',
    ulcd_recv_ack (platform := signed_char_platform)
                  (header := sample_header)
                  (fresh_world [] [ReadChunk [NAK]], new_handle) =
    Some (1, s') /\
    c_str (err (snd s')) <> "device sent NAK instead of ACK"%string.
Proof.
  eexists. split.
  - vm_compute. reflexivity.
  - vm_compute. discriminate.
Qed.

(** C10.  [ulcd_recv_ack] does not look at what [read] returned.
    Whatever the read does (deliver bytes, deliver none, fail), the
    call returns one of [ERROK], [ERRNAK], [ERRUNKNOWN], and both the
    code and the handle it leaves are those of a run in which the read
    delivered the byte that the reply buffer holds: a failed read is
    not told from a successful one. *)
Theorem recv_ack_ignores_read_result (platform : Platform)
        (header : Header) (w : world) (u : ulcd_t) (ev : read_event)
        (rest : list read_event) :
  read_script w = ev :: rest ->
  exists code u',
    ulcd_recv_ack (w, u) = Some (code, (after_read w ev rest, u')) /\
    (code = ERROK \/ code = ERRNAK \/ code = ERRUNKNOWN) /\
    forall w2 rest2,
      read_script w2 = ReadChunk [reply_byte w ev] :: rest2 ->
      ulcd_recv_ack (w2, u) =
      Some (code,
            (after_read w2 (ReadChunk [reply_byte w ev]) rest2, u')).
Proof.
  intros Hscript.
  rewrite (ulcd_recv_ack_run w u ev rest Hscript). cbv zeta.
  destruct (char_load (reply_byte w ev) =? ACK) eqn:Hack;
    [|destruct (char_load (reply_byte w ev) =? NAK) eqn:Hnak];
    do 2 eexists; (split; [reflexivity|]); (split; [auto|]);
    intros w2 rest2 Hscript2;
    rewrite (ulcd_recv_ack_run w2 u _ rest2 Hscript2); cbv zeta;
    cbn [reply_byte]; rewrite Hack; try rewrite Hnak; reflexivity.
Qed.

Lemma recv_ack_ignores_read_result_witness :
  exists code u',
    ulcd_recv_ack (platform := signed_char_platform)
                  (header := sample_header)
                  (failing_read_world, nak_handle) =
    Some (code, (after_read failing_read_world (ReadFail 5) [], u')) /\
    (code = 0 \/ code = 1 \/ code = 2) /\
    forall w2 rest2,
      read_script w2 =
      ReadChunk [reply_byte failing_read_world (ReadFail 5)] :: rest2 ->
      ulcd_recv_ack (platform := signed_char_platform)
                    (header := sample_header) (w2, nak_handle) =
      Some (code,
            (after_read w2
               (ReadChunk [reply_byte failing_read_world (ReadFail 5)])
               rest2, u')).
Proof.
  apply (recv_ack_ignores_read_result signed_char_platform sample_header
           failing_read_world nak_handle (ReadFail 5) []).
  reflexivity.
Defined.

(** ** Sending *)

(** C2, the code at the failing input.  A one-byte send whose [write]
    fails with error number [e]: the failure is not reported.  [-1]
    stored in the unsigned [sent] is not negative, [total] wraps round
    to the largest [size_t], the loop ends, and [ulcd_send] returns
    [ERROK] with the handle untouched and nothing written. *)
Theorem ulcd_send_write_failure_unreported (platform : Platform)
        (header : Header) (u : ulcd_t) (b : Z) (e : positive) :
  ulcd_send [b] 1 (fresh_world [WriteFail e] [], u) =
  Some (ERROK,
        ({| open_script := []; write_script := []; read_script := [];
            written := []; read_calls := 0; errno := Z.pos e;
            uninit := fun _ => 0 |}, u)).
Proof. reflexivity. Qed.

(** The same defect in mid-buffer: a [write] that fails after two of
    three bytes were sent takes [total] back by one, and the loop goes
    on to send the second byte again.  [ulcd_send] returns [ERROK]. *)
Example ulcd_send_resends_after_failure :
  ulcd_send (platform := signed_char_platform) (header := sample_header)
            [1; 2; 3] 3
            (fresh_world [WriteOk 2; WriteFail 5; WriteOk 3] [],
             new_handle) =
  Some (0,
        ({| open_script := []; write_script := []; read_script := [];
            written := [[1; 2]; [2; 3]]; read_calls := 0; errno := 5;
            uninit := fun _ => 0 |}, new_handle)).
Proof. reflexivity. Qed.

(** ** Command, acknowledgment and payload *)

(** C6.  In [ulcd_send_recv_ack_data] asked for [n] bytes, with [ERROK]
    being 0: if the command and acknowledgment exchange fails, its code
    is returned, the buffer is left alone and the operation ends in the
    state the exchange left, no payload byte having been read; if the
    exchange succeeds and the transport then delivers the non-empty
    chunks [chunks], which make [n] bytes together, the operation makes
    exactly one [read] per chunk, returns [ERROK] and leaves the [n]
    bytes, in order, at the start of the buffer. *)
Theorem send_recv_ack_data_drains (platform : Platform) (header : Header)
        (data : list Z) (size : Z) (buffer : list Z) (n : Z) (s : state) :
  ERROK = 0 ->
  0 <= n < 2 ^ 31 ->
  (Z.to_nat n <= length buffer)%nat ->
  (forall x s1,
      ulcd_send_recv_ack data size s = Some (x, s1) -> x <> ERROK ->
      ulcd_send_recv_ack_data data size buffer n s =
      Some ((x, buffer), s1)) /\
  (forall s1 chunks rest,
      ulcd_send_recv_ack data size s = Some (ERROK, s1) ->
      read_script (fst s1) = map ReadChunk chunks ++ rest ->
      Forall (fun c => c <> []) chunks ->
      length (concat chunks) = Z.to_nat n ->
      ulcd_send_recv_ack_data data size buffer n s =
      Some ((ERROK, concat chunks ++ skipn (Z.to_nat n) buffer),
            (after_chunks (fst s1) chunks rest, snd s1))).
Proof.
  intros Hok Hn Hroom. split.
  - intros x s1 Hrun Hx.
    unfold ulcd_send_recv_ack_data, bind. rewrite Hrun.
    destruct (send_recv_ack_with_code _ _ _ _ Hrun) as [|He];
      [contradiction|].
    destruct (Z.eqb_spec x 0) as [|_]; [congruence|]. cbn [negb].
    unfold get_error, ret. rewrite <- He. reflexivity.
  - intros [w1 u1] chunks rest Hrun Hscript Hne Hsum.
    unfold ulcd_send_recv_ack_data, bind. rewrite Hrun.
    replace (negb (ERROK =? 0)) with false by (rewrite Hok; reflexivity).
    cbn [fst snd] in *.
    assert (Hloop :=
              data_loop_chunks chunks (read_weight (read_script w1))
                               buffer 0 w1 u1 rest n).
    cbn [Z.of_nat firstn app] in Hloop. apply Hloop.
    + assert (2 ^ 31 < size_t_modulus) by reflexivity. lia.
    + exact Hscript.
    + exact Hne.
    + exact Hsum.
    + rewrite Hscript, read_weight_app.
      pose proof (read_weight_chunks chunks). lia.
    + exact Hroom.
Qed.

Lemma send_recv_ack_data_drains_witness :
  ulcd_send_recv_ack_data (platform := signed_char_platform)
                          (header := sample_header)
                          [1; 2; 3] 3 [0; 0; 0; 0] 4
                          (payload_world, new_handle) =
  Some ((0, [10; 20; 30; 40]),
        ({| open_script := []; write_script := []; read_script := [];
            written := [[1; 2; 3]]; read_calls := 4; errno := 0;
            uninit := fun _ => 0 |}, new_handle)).
Proof.
  apply (proj2 (send_recv_ack_data_drains
                  signed_char_platform sample_header
                  [1; 2; 3] 3 [0; 0; 0; 0] 4 (payload_world, new_handle)
                  eq_refl ltac:(lia) ltac:(simpl; lia))
               ({| open_script := []; write_script := [];
                   read_script :=
                     [ReadChunk [10]; ReadChunk [20; 30]; ReadChunk [40]];
                   written := [[1; 2; 3]]; read_calls := 1; errno := 0;
                   uninit := fun _ => 0 |}, new_handle)
               [[10]; [20; 30]; [40]] []).
  - reflexivity.
  - reflexivity.
  - repeat constructor; discriminate.
  - reflexivity.
Defined.

(** The acknowledgment and the payload arriving together are told
    apart: the one-byte read takes the acknowledgment and leaves the
    payload for the read loop. *)
Example exchange_single_chunk :
  ulcd_send_recv_ack_data (platform := signed_char_platform)
                          (header := sample_header)
                          [1; 2; 3] 3 [0; 0; 0; 0] 4
                          (fresh_world [WriteOk 3]
                                       [ReadChunk [ACK; 10; 20; 30; 40]],
                           new_handle) =
  Some ((0, [10; 20; 30; 40]),
        ({| open_script := []; write_script := []; read_script := [];
            written := [[1; 2; 3]]; read_calls := 2; errno := 0;
            uninit := fun _ => 0 |}, new_handle)).
Proof. reflexivity. Qed.

(** ** The error codes *)

Section Taxonomy.

Context {platform : Platform} {header : Header}.

Hypothesis ERROK_zero : ERROK = 0.
Hypothesis ERRNAK_nonzero : ERRNAK <> 0.
Hypothesis ERRUNKNOWN_nonzero : ERRUNKNOWN <> 0.

Lemma reported_ok s s' :
  snd s' = snd s -> reported s ERROK s'.
Proof.
  intros Hsame. unfold reported, in_taxonomy. rewrite Hsame.
  split; [left; reflexivity|].
  split; [intros H; contradiction|].
  intros _. split; reflexivity.
Qed.

Lemma reported_protocol s r s' :
  r = ERRNAK \/ r = ERRUNKNOWN -> error (snd s') = r -> reported s r s'.
Proof.
  intros Hr He. unfold reported, in_taxonomy.
  split; [tauto|].
  split; [intros _; exact He|].
  intros Hok. exfalso. rewrite ERROK_zero in Hok.
  destruct Hr; subst r; [apply ERRNAK_nonzero|apply ERRUNKNOWN_nonzero];
    exact Hok.
Qed.

Lemma open_reported s r s' :
  ulcd_open_serial_device s = Some (r, s') -> reported s r s'.
Proof.
  destruct s as [w u].
  unfold ulcd_open_serial_device, bind, sys_open, set_fd, get_errno.
  destruct (open_script w) as [|[e|d] rest] eqn:Hscript; [discriminate| |].
  - cbn [Z.eqb Pos.eqb fst errno]. unfold fail_with.
    cbn [ulcd_error]. intros [= <- <-].
    unfold reported, in_taxonomy, os_error. cbn [fst snd error].
    split.
    { right. right. right. exists e. split; [reflexivity|].
      left. rewrite Hscript. left. reflexivity. }
    split; [intros _; reflexivity|].
    intros Hok. rewrite ERROK_zero in Hok. discriminate.
  - destruct (Z.eqb_spec (Z.of_N d) (-1)) as [Hneg|_]; [lia|].
    unfold ret. intros [= <- <-].
    unfold reported, in_taxonomy. cbn [fst snd error err].
    split; [left; reflexivity|].
    split; [intros H; contradiction|].
    intros _. split; reflexivity.
Qed.

Lemma send_reported data size s r s' :
  ulcd_send data size s = Some (r, s') -> reported s r s'.
Proof.
  intros Hrun. destruct (ulcd_send_never_fails _ _ _ _ _ Hrun) as [-> Hu].
  apply reported_ok. exact Hu.
Qed.

Lemma recv_ack_reported s r s' :
  ulcd_recv_ack s = Some (r, s') -> reported s r s'.
Proof.
  intros Hrun. destruct (ulcd_recv_ack_code _ _ _ Hrun) as [[-> Hu]|[Hr He]].
  - apply reported_ok. exact Hu.
  - apply reported_protocol; assumption.
Qed.

Lemma send_recv_ack_reported data size s r s' :
  ulcd_send_recv_ack data size s = Some (r, s') -> reported s r s'.
Proof.
  intros Hrun.
  destruct (ulcd_send_recv_ack_code _ _ _ _ _ ERROK_zero ERRNAK_nonzero
              ERRUNKNOWN_nonzero Hrun) as [[-> Hu]|[Hr He]].
  - apply reported_ok. exact Hu.
  - apply reported_protocol; assumption.
Qed.

Lemma send_recv_ack_data_reported data size buffer n s r buffer' s' :
  ulcd_send_recv_ack_data data size buffer n s = Some ((r, buffer'), s') ->
  reported s r s'.
Proof.
  unfold ulcd_send_recv_ack_data, bind.
  destruct (ulcd_send_recv_ack data size s) as [[x s1]|] eqn:Hrun;
    [|discriminate].
  pose proof (send_recv_ack_reported _ _ _ _ _ Hrun) as Hrep.
  destruct Hrep as (Htax & Hset & Hkeep).
  destruct (Z.eqb_spec x 0) as [->|Hx]; cbn [negb].
  - intros Hloop.
    destruct (data_loop_never_fails _ _ _ _ _ _ _ _ Hloop) as [-> Hu].
    destruct (Hkeep (eq_sym ERROK_zero)) as [He Hm].
    unfold reported. rewrite Hu.
    split; [left; reflexivity|].
    split; [intros H; contradiction|].
    intros _. split; assumption.
  - unfold get_error, ret. intros [= <- <- <-].
    rewrite Hset by congruence. unfold reported.
    split; [exact Htax|].
    split; [intros _; apply Hset; congruence|].
    exact Hkeep.
Qed.

End Taxonomy.

(** When the exchange of [ulcd_send_recv_ack_word] fails, the function
    returns -1, whatever code the exchange left on the handle. *)
Lemma ulcd_send_recv_ack_word_failure (platform : Platform)
      (header : Header) data size want s x buffer s1 :
  ulcd_send_recv_ack_data data size
    [uninit (fst s) 0; uninit (fst s) 1] 2 s = Some ((x, buffer), s1) ->
  x <> 0 ->
  ulcd_send_recv_ack_word data size want s = Some ((-1, None), s1).
Proof.
  intros Hrun Hx.
  unfold ulcd_send_recv_ack_word, bind, get_uninit. rewrite Hrun.
  destruct (Z.eqb_spec x 0) as [|_]; [contradiction|]. reflexivity.
Qed.

(** C4, as amended.  With [ERROK] being 0 and the two protocol codes
    not: each of [ulcd_open_serial_device], [ulcd_send],
    [ulcd_recv_ack], [ulcd_send_recv_ack] and [ulcd_send_recv_ack_data],
    when it returns, returns one code out of [ERROK], [ERRNAK],
    [ERRUNKNOWN] and the error numbers of failed [open], [write] and
    [read] calls; a code other than [ERROK] is the code it has left on
    the handle, whereas a return of [ERROK] leaves the error code and
    the message of the handle as they were. *)
Theorem error_codes_reported (platform : Platform) (header : Header)
        (s : state) :
  ERROK = 0 -> ERRNAK <> 0 -> ERRUNKNOWN <> 0 ->
  (forall r s',
      ulcd_open_serial_device s = Some (r, s') -> reported s r s') /\
  (forall data size r s',
      ulcd_send data size s = Some (r, s') -> reported s r s') /\
  (forall r s',
      ulcd_recv_ack s = Some (r, s') -> reported s r s') /\
  (forall data size r s',
      ulcd_send_recv_ack data size s = Some (r, s') -> reported s r s') /\
  (forall data size buffer n r buffer' s',
      ulcd_send_recv_ack_data data size buffer n s =
      Some ((r, buffer'), s') ->
      reported s r s').
Proof.
  intros Hok Hnak Hunk.
  split; [|split; [|split; [|split]]].
  - intros r s'. apply open_reported. exact Hok.
  - intros data size r s'. apply send_reported.
  - intros r s'. apply recv_ack_reported; assumption.
  - intros data size r s'. apply send_recv_ack_reported; assumption.
  - intros data size buffer n r buffer' s'.
    apply send_recv_ack_data_reported; assumption.
Qed.

Lemma error_codes_reported_witness :
  reported (header := sample_header) (ack_world, nak_handle) 0
           (after_read ack_world (ReadChunk [ACK]) [], nak_handle).
Proof.
  apply (proj1 (proj2 (proj2
           (error_codes_reported signed_char_platform sample_header
              (ack_world, nak_handle) eq_refl
              ltac:(discriminate) ltac:(discriminate))))).
  reflexivity.
Defined.

(** C4 as stated fails.  Under [sample_header] ([ERROK] 0, [ERRNAK] 1,
    [ERRUNKNOWN] 2): an exchange answered by NAK followed by one
    answered by ACK returns 1 and then 0, yet after the second the
    handle still holds code 1, so the code returned is not the code on
    the handle; and [ulcd_send_recv_ack_word] answered by NAK returns
    -1, which is none of the codes, while the handle holds 1. *)
Lemma error_codes_cex :
  (exists s1 s2,
      ulcd_send_recv_ack (platform := signed_char_platform)
                         (header := sample_header) [1; 2; 3] 3
                         (nak_then_ack_world, new_handle) = Some (1, s1) /\
      ulcd_send_recv_ack (platform := signed_char_platform)
                         (header := sample_header) [1; 2; 3] 3 s1 =
      Some (0, s2) /\
      error (snd s2) = 1) /\
  (exists s1,
      ulcd_send_recv_ack_word (platform := signed_char_platform)
                              (header := sample_header) [1; 2; 3] 3 true
                              (nak_then_ack_world, new_handle) =
      Some ((-1, None), s1) /\
      error (snd s1) = 1).
Proof.
  split.
  - do 2 eexists. split; [|split].
    + vm_compute. reflexivity.
    + vm_compute. reflexivity.
    + reflexivity.
  - eexists. split.
    + vm_compute. reflexivity.
    + reflexivity.
Qed.

(** ** More on the encoder *)

Lemma load_outside pre mid post i :
  (i < length pre \/ length pre + length mid <= i)%nat ->
  forall mid',
    length mid' = length mid ->
    load (pre ++ mid' ++ post) i = load (pre ++ mid ++ post) i.
Proof.
  intros Hi mid' Hlen. unfold load. destruct Hi as [Hi|Hi].
  - rewrite !app_nth1 by exact Hi. reflexivity.
  - rewrite !(app_nth2 pre) by lia.
    rewrite !app_nth2 by lia. rewrite Hlen. reflexivity.
Qed.

(** X1.  [pack_uint] writes the two cells it is pointed at and nothing
    else: whatever the value, the buffer keeps its length and every
    other cell keeps its byte. *)
Theorem pack_uint_frame (dest : list Z) (off : nat) (v : Z) (i : nat) :
  (off + 1 < length dest)%nat ->
  i <> off -> i <> (off + 1)%nat ->
  length (fst (pack_uint dest off v)) = length dest /\
  load (fst (pack_uint dest off v)) i = load dest i.
Proof.
  intros Hroom Hi0 Hi1. split.
  - unfold pack_uint. cbn [fst]. rewrite !store_length. reflexivity.
  - rewrite pack_uint_splice by exact Hroom. cbn [fst].
    assert (Hpre : length (firstn off dest) = off)
      by (rewrite length_firstn; lia).
    assert (Hmid : length (firstn 2 (skipn off dest)) = 2%nat)
      by (rewrite length_firstn, length_skipn; lia).
    transitivity
      (load (firstn off dest ++ firstn 2 (skipn off dest)
               ++ skipn (off + 2) dest) i).
    + apply load_outside; [rewrite Hpre, Hmid; lia|].
      rewrite Hmid. reflexivity.
    + f_equal.
      replace (off + 2)%nat with (2 + off)%nat by lia.
      rewrite <- skipn_skipn, firstn_skipn, firstn_skipn. reflexivity.
Qed.

Lemma pack_uint_frame_witness :
  length (fst (pack_uint [7; 8; 9; 10] 1 0xBEEF)) = length [7; 8; 9; 10] /\
  load (fst (pack_uint [7; 8; 9; 10] 1 0xBEEF)) 3 = load [7; 8; 9; 10] 3.
Proof.
  apply (pack_uint_frame [7; 8; 9; 10] 1 0xBEEF 3); simpl; lia.
Defined.

(** The value [unpack_uint] reads from two cells holding the bytes
    [hi] and [lo], whatever the signedness of [char]. *)
Lemma unpack_uint_bytes {platform : Platform} src off hi lo :
  0 <= hi < 256 -> 0 <= lo < 256 ->
  load src off = hi -> load src (off + 1) = lo ->
  unpack_uint src off = hi * 256 + lo.
Proof.
  intros Hhi Hlo Hl0 Hl1. unfold unpack_uint. rewrite Hl0, Hl1.
  rewrite shift_mask, low_byte, !char_load_low.
  rewrite !Z.mod_small by lia.
  rewrite lor_bytes by lia.
  unfold to_param. change (2 ^ 16) with 65536.
  apply Z.mod_small. lia.
Qed.

(** X2.  Packing what [unpack_uint] read gives the two bytes back:
    whatever the signedness of [char], [unpack_uint] followed by
    [pack_uint] is the identity on pairs of bytes, so no two byte pairs
    decode to the same value. *)
Theorem pack_unpack_inverse (platform : Platform) (src : list Z)
        (off : nat) (hi lo : Z) :
  0 <= hi < 256 -> 0 <= lo < 256 ->
  load src off = hi -> load src (off + 1) = lo ->
  packed (unpack_uint src off) = [hi; lo].
Proof.
  intros Hhi Hlo Hl0 Hl1.
  rewrite (unpack_uint_bytes src off hi lo) by assumption.
  rewrite packed_range by lia. f_equal; [|f_equal].
  - symmetry. apply Z.div_unique with (r := lo); lia.
  - symmetry. apply Z.mod_unique with (q := hi); lia.
Qed.

Lemma pack_unpack_inverse_witness :
  packed (unpack_uint (platform := signed_char_platform) [0xFF; 0x80] 0) =
  [0xFF; 0x80].
Proof.
  apply (pack_unpack_inverse signed_char_platform [0xFF; 0x80] 0 0xFF 0x80);
    try reflexivity; lia.
Defined.

Lemma pack_uints_loop_extra ps :
  forall buffer off extra,
    pack_uints_loop (length ps) buffer off (ps ++ extra) =
    pack_uints_loop (length ps) buffer off ps.
Proof.
  induction ps as [|v ps IH]; intros buffer off extra;
    cbn [length app pack_uints_loop].
  - reflexivity.
  - apply IH.
Qed.

(** X3.  [pack_uints] consumes exactly [args] of the arguments it is
    passed: arguments beyond the count change neither the buffer nor
    the returned length; and with a count from [- 2 ^ 30] to 0 (so that
    twice the count is an [int]) it writes nothing and returns twice
    the count, a negative number for a negative count. *)
Theorem pack_uints_takes_args (buffer : list Z) (off : nat) (ps extra : list Z)
        (args : Z) (lst : list Z) :
  - 2 ^ 30 <= args <= 0 ->
  pack_uints buffer off (Z.of_nat (length ps)) (ps ++ extra) =
  pack_uints buffer off (Z.of_nat (length ps)) ps /\
  pack_uints buffer off args lst = Some (buffer, args * 2) /\
  - 2 ^ 31 <= args * 2 <= 0.
Proof.
  intros Hargs. split; [|split].
  - unfold pack_uints.
    rewrite Nat2Z.id, pack_uints_loop_extra. reflexivity.
  - unfold pack_uints.
    replace (Z.to_nat args) with 0%nat by lia. reflexivity.
  - change (2 ^ 30) with 1073741824 in Hargs.
    change (2 ^ 31) with 2147483648. lia.
Qed.

Lemma pack_uints_takes_args_witness :
  pack_uints [7; 8; 9; 10] 0 (Z.of_nat (length [0x0102; 0x0304]))
             ([0x0102; 0x0304] ++ [0x0506]) =
  pack_uints [7; 8; 9; 10] 0 (Z.of_nat (length [0x0102; 0x0304]))
             [0x0102; 0x0304] /\
  pack_uints [7; 8; 9; 10] 0 (-1) [0x0102] = Some ([7; 8; 9; 10], -1 * 2) /\
  - 2 ^ 31 <= -1 * 2 <= 0.
Proof.
  apply (pack_uints_takes_args [7; 8; 9; 10] 0 [0x0102; 0x0304] [0x0506]
                               (-1) [0x0102]).
  cbn; lia.
Defined.

Lemma load_concat_packed ps :
  forall pre post i,
    Forall (fun v => 0 <= v < 65536) ps ->
    (i < length ps)%nat ->
    load (pre ++ concat (map packed ps) ++ post) (length pre + 2 * i)
    = nth i ps 0 / 256 /\
    load (pre ++ concat (map packed ps) ++ post) (length pre + 2 * i + 1)
    = nth i ps 0 mod 256.
Proof.
  induction ps as [|v ps IH]; intros pre post i Hps Hi;
    cbn [length] in Hi; [lia|].
  inversion Hps as [|? ? Hv Hps']; subst.
  cbn [map concat]. rewrite packed_range by exact Hv.
  destruct i as [|i].
  - cbn [nth app]. rewrite Nat.mul_0_r, Nat.add_0_r.
    apply load_splice. reflexivity.
  - cbn [nth].
    replace (pre ++ ([v / 256; v mod 256] ++ concat (map packed ps)) ++ post)
      with ((pre ++ [v / 256; v mod 256])
              ++ concat (map packed ps) ++ post)
      by (rewrite <- !app_assoc; reflexivity).
    replace (length pre + 2 * S i)%nat
      with (length (pre ++ [(v / 256)%Z; (v mod 256)%Z]) + 2 * i)%nat
      by (rewrite length_app; cbn [length]; lia).
    apply IH; [exact Hps'|lia].
Qed.

(** X4.  A sequence of 16-bit parameters written by [pack_uints] is
    read back by [unpack_uint], parameter by parameter: the i-th
    parameter is found two bytes further for each parameter before
    it. *)
Theorem pack_uints_unpack_each (platform : Platform) (buffer : list Z)
        (off : nat) (ps : list Z) (i : nat) :
  Forall (fun v => 0 <= v < 65536) ps ->
  (off + 2 * length ps <= length buffer)%nat ->
  (i < length ps)%nat ->
  exists packed_buffer,
    pack_uints buffer off (Z.of_nat (length ps)) ps =
    Some (packed_buffer, 2 * Z.of_nat (length ps)) /\
    unpack_uint packed_buffer (off + 2 * i) = nth i ps 0.
Proof.
  intros Hps Hroom Hi.
  eexists. split.
  - unfold pack_uints.
    rewrite Nat2Z.id, pack_uints_loop_splice by assumption.
    f_equal. f_equal. lia.
  - assert (Hpre : length (firstn off buffer) = off)
      by (rewrite length_firstn; lia).
    destruct (load_concat_packed ps (firstn off buffer)
                (skipn (off + 2 * length ps) buffer) i Hps Hi)
      as [Hhi Hlo].
    rewrite Hpre in Hhi, Hlo.
    assert (Hv : 0 <= nth i ps 0 < 65536).
    { rewrite Forall_forall in Hps. apply Hps. apply nth_In. exact Hi. }
    pose proof (byte_of_div _ Hv) as Hd.
    pose proof (Z.mod_pos_bound (nth i ps 0) 256 ltac:(lia)) as Hm.
    rewrite (unpack_uint_bytes _ _ _ _ Hd Hm Hhi Hlo).
    pose proof (Z.div_mod (nth i ps 0) 256). lia.
Qed.

Lemma pack_uints_unpack_each_witness :
  exists packed_buffer,
    pack_uints [6; 0; 0; 0; 0; 0; 0; 9] 1 3 [0x0102; 0xFFFE; 0x8000] =
    Some (packed_buffer, 6) /\
    unpack_uint (platform := signed_char_platform) packed_buffer (1 + 2 * 1)
    = 0xFFFE.
Proof.
  apply (pack_uints_unpack_each signed_char_platform
           [6; 0; 0; 0; 0; 0; 0; 9] 1 [0x0102; 0xFFFE; 0x8000] 1).
  - repeat constructor; lia.
  - simpl; lia.
  - simpl; lia.
Defined.

(** ** Opening and releasing the handle *)

Lemma c_str_zeros n : c_str (repeat zero n) = EmptyString.
Proof. destruct n; reflexivity. Qed.

(** X5.  A failed [open] is reported with the error number as the code
    and the text "Unable to open serial device: " followed by the text
    of the error number as the message (when the buffer has room for
    it); the handle's descriptor is then -1, so that [ulcd_free] closes
    nothing. *)
Theorem open_failure_reported (platform : Platform) (header : Header)
        (w : world) (u : ulcd_t) (e : positive) (rest : list open_event) :
  open_script w = OpenFail e :: rest ->
  (String.length ("Unable to open serial device: " ++ strerror (Z.pos e))
     < STRBUFSIZE)%nat ->
  ~ In zero (list_ascii_of_string
               ("Unable to open serial device: " ++ strerror (Z.pos e))) ->
  exists s',
    ulcd_open_serial_device (w, u) = Some (Z.pos e, s') /\
    fd (snd s') = -1 /\
    error (snd s') = Z.pos e /\
    c_str (err (snd s')) =
      ("Unable to open serial device: " ++ strerror (Z.pos e))%string /\
    errno (fst s') = Z.pos e /\
    ulcd_free (snd s') = [].
Proof.
  intros Hscript Hfit Hnul.
  unfold ulcd_open_serial_device, bind, sys_open, set_fd, get_errno.
  rewrite Hscript. cbn [Z.eqb Pos.eqb fst errno]. unfold fail_with.
  cbn [ulcd_error]. eexists. split; [reflexivity|].
  cbn [snd fst fd error err errno].
  repeat split.
  apply vsnprintf_fits; assumption.
Qed.

Lemma open_failure_reported_witness :
  exists s',
    ulcd_open_serial_device (platform := signed_char_platform)
                            (header := sample_header)
      ({| open_script := [OpenFail 2]; write_script := [];
          read_script := []; written := []; read_calls := 0;
          errno := 0; uninit := fun _ => 0 |}, new_handle) =
    Some (2, s') /\
    fd (snd s') = -1 /\
    error (snd s') = 2 /\
    c_str (err (snd s')) =
      "Unable to open serial device: No such file or directory"%string /\
    errno (fst s') = 2 /\
    ulcd_free (snd s') = [].
Proof.
  apply (open_failure_reported signed_char_platform sample_header
           {| open_script := [OpenFail 2]; write_script := [];
              read_script := []; written := []; read_calls := 0;
              errno := 0; uninit := fun _ => 0 |} new_handle 2 []).
  - reflexivity.
  - simpl; lia.
  - apply nul_free_by_eval. reflexivity.
Defined.

(** X6.  A successful [open] returns [ERROK], stores the descriptor on
    the handle and leaves the error code and message alone; [ulcd_free]
    then closes that descriptor and no other.  A handle fresh from
    [ulcd_new] has an empty message and nothing to close. *)
Theorem open_then_free (platform : Platform) (header : Header)
        (w : world) (u : ulcd_t) (d : N) (rest : list open_event) :
  open_script w = OpenOk d :: rest ->
  (exists s',
      ulcd_open_serial_device (w, u) = Some (ERROK, s') /\
      fd (snd s') = Z.of_N d /\
      error (snd s') = error u /\
      err (snd s') = err u /\
      ulcd_free (snd s') = [Z.of_N d]) /\
  ulcd_free ulcd_new = [] /\
  c_str (err ulcd_new) = EmptyString.
Proof.
  intros Hscript. split; [|split].
  - unfold ulcd_open_serial_device, bind, sys_open, set_fd.
    rewrite Hscript.
    destruct (Z.eqb_spec (Z.of_N d) (-1)) as [Hneg|Hpos]; [lia|].
    eexists. split; [reflexivity|].
    cbn [snd fd error err]. repeat split.
    unfold ulcd_free. cbn [fd].
    destruct (Z.eqb_spec (Z.of_N d) (-1)) as [Hneg|_]; [lia|].
    reflexivity.
  - reflexivity.
  - apply c_str_zeros.
Qed.

Lemma open_then_free_witness :
  (exists s',
      ulcd_open_serial_device (platform := signed_char_platform)
                              (header := sample_header)
        ({| open_script := [OpenOk 3]; write_script := [];
            read_script := []; written := []; read_calls := 0;
            errno := 0; uninit := fun _ => 0 |}, nak_handle) =
      Some (0, s') /\
      fd (snd s') = 3 /\
      error (snd s') = 1 /\
      err (snd s') = err nak_handle /\
      ulcd_free (snd s') = [3]) /\
  ulcd_free (ulcd_new (header := sample_header)) = [] /\
  c_str (err (ulcd_new (header := sample_header))) = EmptyString.
Proof.
  apply (open_then_free signed_char_platform sample_header
           {| open_script := [OpenOk 3]; write_script := [];
              read_script := []; written := []; read_calls := 0;
              errno := 0; uninit := fun _ => 0 |} nak_handle 3 []).
  reflexivity.
Defined.

(** ** What the operations keep of the handle *)

Lemma same_line_refl u : same_line u u.
Proof. unfold same_line. auto. Qed.

Lemma same_line_trans u1 u2 u3 :
  same_line u1 u2 -> same_line u2 u3 -> same_line u1 u3.
Proof.
  unfold same_line. intros (F1 & D1 & B1 & L1) (F2 & D2 & B2 & L2).
  repeat split; congruence.
Qed.

Lemma ulcd_error_same_line {header : Header} u code msg :
  length (err u) = STRBUFSIZE ->
  same_line u (snd (ulcd_error u code msg)).
Proof.
  intros Hlen. unfold same_line. cbn [ulcd_error snd fd device baudrate err].
  repeat split.
  destruct msg as [text|].
  - rewrite vsnprintf_length by exact Hlen. symmetry. exact Hlen.
  - destruct (err u); reflexivity.
Qed.

Section KeepsLine.

Context {platform : Platform} {header : Header}.

Lemma recv_ack_same_line s a s' :
  length (err (snd s)) = STRBUFSIZE ->
  ulcd_recv_ack s = Some (a, s') ->
  same_line (snd s) (snd s').
Proof.
  destruct s as [w u]. cbn [snd]. intros Hlen.
  destruct (read_script w) as [|ev rest] eqn:Hscript.
  - unfold ulcd_recv_ack, bind, get_uninit, sys_read. cbn [fst].
    rewrite Hscript. discriminate.
  - rewrite (ulcd_recv_ack_run w u ev rest Hscript). cbv zeta.
    destruct (_ =? ACK); [|destruct (_ =? NAK)];
      intros [= <- <-]; cbn [snd].
    + apply same_line_refl.
    + exact (ulcd_error_same_line u ERRNAK
               (Some "Device sent NAK instead of ACK"%string) Hlen).
    + exact (ulcd_error_same_line u ERRUNKNOWN
               (Some "Device sent unknown reply instead of ACK"%string)
               Hlen).
Qed.

Lemma send_recv_ack_same_line data size s x s' :
  length (err (snd s)) = STRBUFSIZE ->
  ulcd_send_recv_ack data size s = Some (x, s') ->
  same_line (snd s) (snd s').
Proof.
  intros Hlen. unfold ulcd_send_recv_ack, send_recv_ack_with, bind.
  destruct (ulcd_send data size s) as [[r s0]|] eqn:Hsend; [|discriminate].
  destruct (ulcd_send_never_fails _ _ _ _ _ Hsend) as [_ Hu].
  destruct (negb (r =? 0)).
  - unfold get_error. intros [= <- <-]. rewrite Hu. apply same_line_refl.
  - destruct (ulcd_recv_ack s0) as [[a s2]|] eqn:Hrecv; [|discriminate].
    assert (Hline : same_line (snd s) (snd s2)).
    { rewrite <- Hu. apply (recv_ack_same_line s0 a s2); [|exact Hrecv].
      rewrite Hu. exact Hlen. }
    destruct (negb (a =? 0)); unfold get_error, ret;
      intros [= <- <-]; exact Hline.
Qed.

Lemma send_recv_ack_data_same_line data size buffer n s x buffer' s' :
  length (err (snd s)) = STRBUFSIZE ->
  ulcd_send_recv_ack_data data size buffer n s = Some ((x, buffer'), s') ->
  same_line (snd s) (snd s').
Proof.
  intros Hlen. unfold ulcd_send_recv_ack_data, bind.
  destruct (ulcd_send_recv_ack data size s) as [[a s1]|] eqn:Hrun;
    [|discriminate].
  pose proof (send_recv_ack_same_line _ _ _ _ _ Hlen Hrun) as Hline.
  destruct (negb (a =? 0)).
  - unfold get_error, ret. intros [= <- <- <-]. exact Hline.
  - intros Hloop.
    destruct (data_loop_never_fails _ _ _ _ _ _ _ _ Hloop) as [_ Hu].
    rewrite Hu. exact Hline.
Qed.

(** [ulcd_send_recv_ack_word] ends in the state its exchange ends in. *)
Lemma word_runs_data data size want s r s' :
  ulcd_send_recv_ack_word data size want s = Some (r, s') ->
  exists x buffer,
    ulcd_send_recv_ack_data data size
      [uninit (fst s) 0; uninit (fst s) 1] 2 s = Some ((x, buffer), s').
Proof.
  unfold ulcd_send_recv_ack_word, bind, get_uninit.
  destruct (ulcd_send_recv_ack_data _ _ _ _ s) as [[[x buffer] s1]|];
    [|discriminate].
  destruct (negb (x =? 0)); [|destruct want]; unfold ret;
    intros [= <- <-]; do 2 eexists; reflexivity.
Qed.

End KeepsLine.

(** X7.  No operation of the exchange protocol changes the line the
    handle stands for: when [ulcd_send], [ulcd_recv_ack],
    [ulcd_send_recv_ack], [ulcd_send_recv_ack_data] or
    [ulcd_send_recv_ack_word] returns, the handle has the descriptor,
    path and speed it had, and its message buffer still has
    [STRBUFSIZE] characters (no message overruns it). *)
Theorem protocol_keeps_line (platform : Platform) (header : Header)
        (s : state) :
  length (err (snd s)) = STRBUFSIZE ->
  (forall data size r s',
      ulcd_send data size s = Some (r, s') ->
      same_line (snd s) (snd s')) /\
  (forall r s',
      ulcd_recv_ack s = Some (r, s') -> same_line (snd s) (snd s')) /\
  (forall data size r s',
      ulcd_send_recv_ack data size s = Some (r, s') ->
      same_line (snd s) (snd s')) /\
  (forall data size buffer n r s',
      ulcd_send_recv_ack_data data size buffer n s = Some (r, s') ->
      same_line (snd s) (snd s')) /\
  (forall data size want r s',
      ulcd_send_recv_ack_word data size want s = Some (r, s') ->
      same_line (snd s) (snd s')).
Proof.
  intros Hlen.
  split; [|split; [|split; [|split]]].
  - intros data size r s' Hrun.
    destruct (ulcd_send_never_fails _ _ _ _ _ Hrun) as [_ Hu].
    rewrite Hu. apply same_line_refl.
  - intros r s'. apply recv_ack_same_line. exact Hlen.
  - intros data size r s'. apply send_recv_ack_same_line. exact Hlen.
  - intros data size buffer n [x buffer'] s'.
    apply send_recv_ack_data_same_line. exact Hlen.
  - intros data size want r s' Hrun.
    destruct (word_runs_data _ _ _ _ _ _ Hrun) as (x & buffer & Hdata).
    apply (send_recv_ack_data_same_line _ _ _ _ _ _ _ _ Hlen Hdata).
Qed.

Lemma protocol_keeps_line_witness :
  same_line new_handle
    (snd (ulcd_error (header := sample_header) new_handle 1
            (Some "Device sent NAK instead of ACK"%string))).
Proof.
  apply (proj1 (proj2 (protocol_keeps_line
                         signed_char_platform sample_header
                         (fresh_world [] [ReadChunk [NAK]], new_handle)
                         eq_refl))
               1
               (after_read (fresh_world [] [ReadChunk [NAK]])
                           (ReadChunk [NAK]) [],
                snd (ulcd_error (header := sample_header) new_handle 1
                       (Some "Device sent NAK instead of ACK"%string)))).
  reflexivity.
Defined.

(** ** More on sending *)

Section SendFrame.

Context {platform : Platform} {header : Header}.

(** The write loop leaves the reading side of the transport alone. *)
Lemma send_loop_reads_nothing fuel data size :
  forall total w u r w' u',
    send_loop fuel data size total (w, u) = Some (r, (w', u')) ->
    read_script w' = read_script w /\ read_calls w' = read_calls w.
Proof.
  induction fuel as [|fuel IH]; intros total w u r w' u' Hrun;
    cbn [send_loop] in Hrun;
    destruct (total <? to_size_t size).
  - discriminate.
  - inversion Hrun. split; reflexivity.
  - unfold bind, sys_write in Hrun.
    destruct (write_script w) as [|[e|k] rest]; [discriminate| |];
      rewrite size_t_never_negative in Hrun;
      apply IH in Hrun; exact Hrun.
  - inversion Hrun. split; reflexivity.
Qed.

(** When the step before succeeded, the body of [ulcd_send_recv_ack]
    is [ulcd_recv_ack]. *)
Lemma send_recv_ack_with_success step s s1 :
  ERROK = 0 ->
  step s = Some (ERROK, s1) ->
  send_recv_ack_with step s = ulcd_recv_ack s1.
Proof.
  intros Hok Hstep. unfold send_recv_ack_with, bind.
  rewrite Hstep, Hok. cbn [Z.eqb negb].
  destruct (ulcd_recv_ack s1) as [[a s2]|] eqn:Hrecv; [|reflexivity].
  destruct (ulcd_recv_ack_code _ _ _ Hrecv) as [[-> _]|[Ha He]].
  - rewrite Hok. reflexivity.
  - destruct (Z.eqb_spec a 0) as [->|_]; cbn [negb].
    + reflexivity.
    + unfold get_error. rewrite He. reflexivity.
Qed.

(** After a successful exchange [ulcd_send_recv_ack_data] is its read
    loop. *)
Lemma data_after_exchange data size buffer n s s1 :
  ERROK = 0 ->
  ulcd_send_recv_ack data size s = Some (ERROK, s1) ->
  ulcd_send_recv_ack_data data size buffer n s =
  data_loop (read_weight (read_script (fst s1))) buffer n 0 s1.
Proof.
  intros Hok Hrun. unfold ulcd_send_recv_ack_data, bind.
  rewrite Hrun.
  replace (negb (ERROK =? 0)) with false by (rewrite Hok; reflexivity).
  reflexivity.
Qed.

(** The read loop with nothing left to read. *)
Lemma data_loop_done fuel buffer n total s :
  to_size_t n <= total ->
  data_loop fuel buffer n total s = Some ((ERROK, buffer), s).
Proof.
  intros Hdone.
  assert (Hcond : (total <? to_size_t n) = false) by (apply Z.ltb_ge; lia).
  destruct fuel; cbn [data_loop]; rewrite Hcond; reflexivity.
Qed.

End SendFrame.

(** X8.  [ulcd_send] never reports a failure: for every buffer, size
    and transport, when it returns it returns [ERROK], the handle's
    error code and message are untouched (failed writes included), and
    it has made no [read]. *)
Theorem ulcd_send_reports_nothing (platform : Platform) (header : Header)
        (data : list Z) (size : Z) (s : state) (r : Z) (s' : state) :
  ulcd_send data size s = Some (r, s') ->
  r = ERROK /\
  snd s' = snd s /\
  read_script (fst s') = read_script (fst s) /\
  read_calls (fst s') = read_calls (fst s).
Proof.
  intros Hrun.
  destruct (ulcd_send_never_fails _ _ _ _ _ Hrun) as [Hr Hu].
  destruct s as [w u], s' as [w' u'].
  destruct (send_loop_reads_nothing _ _ _ _ _ _ _ _ _ Hrun) as [Hs Hc].
  repeat split; assumption.
Qed.

Lemma ulcd_send_reports_nothing_witness :
  let s := (fresh_world [WriteOk 2; WriteFail 5; WriteOk 3] [], nak_handle) in
  let s' :=
    ({| open_script := []; write_script := []; read_script := [];
        written := [[1; 2]; [2; 3]]; read_calls := 0; errno := 5;
        uninit := fun _ => 0 |}, nak_handle) in
  ulcd_send (platform := signed_char_platform) (header := sample_header)
            [1; 2; 3] 3 s = Some (0, s') /\
  (0 = ERROK (Header := sample_header) /\
   snd s' = snd s /\
   read_script (fst s') = read_script (fst s) /\
   read_calls (fst s') = read_calls (fst s)).
Proof.
  split; [reflexivity|].
  apply (ulcd_send_reports_nothing signed_char_platform sample_header
           [1; 2; 3] 3
           (fresh_world [WriteOk 2; WriteFail 5; WriteOk 3] [], nak_handle)).
  reflexivity.
Defined.

(** X9.  [ulcd_send] over partial writes: when the transport takes the
    buffer in pieces of [ks] bytes, each at least one and [size] in
    all, [ulcd_send] returns [ERROK] after one [write] per piece, and
    the slices written, put together, are the first [size] bytes of
    the buffer in order: nothing is lost, repeated or reordered. *)
Theorem ulcd_send_partial_writes (platform : Platform) (header : Header)
        (data : list Z) (size : Z) (ks : list nat) (w : world)
        (u : ulcd_t) (rest : list write_event) :
  0 <= size < 2 ^ 31 ->
  write_script w = map WriteOk ks ++ rest ->
  Forall (fun k => (1 <= k)%nat) ks ->
  list_sum ks = Z.to_nat size ->
  ulcd_send data size (w, u) =
  Some (ERROK,
        (mk_world (open_script w) rest (read_script w)
                  (written w ++ slices data ks)
                  (read_calls w) (errno w) (uninit w), u)) /\
  length (slices data ks) = length ks /\
  concat (slices data ks) = firstn (Z.to_nat size) data.
Proof.
  intros Hsize Hscript Hks Hsum.
  destruct (ulcd_send_accumulates data size ks w u rest
              Hsize Hscript Hks Hsum) as [Hrun Hall].
  repeat split; try assumption.
  clear. revert data. induction ks as [|k ks IH]; intros data;
    cbn [slices length]; [reflexivity|]. rewrite IH. reflexivity.
Qed.

Lemma ulcd_send_partial_writes_witness :
  ulcd_send (platform := signed_char_platform) (header := sample_header)
            [1; 2; 3; 4] 4
            (fresh_world [WriteOk 1; WriteOk 1; WriteOk 1; WriteOk 1] [],
             new_handle) =
  Some (0,
        ({| open_script := []; write_script := []; read_script := [];
            written := [] ++ slices [1; 2; 3; 4] [1; 1; 1; 1]%nat;
            read_calls := 0; errno := 0; uninit := fun _ => 0 |},
         new_handle)) /\
  length (slices [1; 2; 3; 4] [1; 1; 1; 1]%nat) = 4%nat /\
  concat (slices [1; 2; 3; 4] [1; 1; 1; 1]%nat) = [1; 2; 3; 4].
Proof.
  apply (ulcd_send_partial_writes signed_char_platform sample_header
           [1; 2; 3; 4] 4 [1; 1; 1; 1]%nat
           (fresh_world [WriteOk 1; WriteOk 1; WriteOk 1; WriteOk 1] [])
           new_handle []).
  - lia.
  - reflexivity.
  - repeat constructor.
  - reflexivity.
Defined.

(** X10.  A [write] that fails at the start of a command does not stop
    the exchange: [ulcd_send] returns [ERROK] with nothing written, and
    [ulcd_send_recv_ack] goes on to [ulcd_recv_ack], waiting for the
    acknowledgment of a command the device never got. *)
Theorem failed_write_still_awaits_ack (platform : Platform)
        (header : Header) (data : list Z) (size : Z) (w : world)
        (u : ulcd_t) (e : positive) (rest : list write_event) :
  ERROK = 0 ->
  0 < size < 2 ^ 31 ->
  write_script w = WriteFail e :: rest ->
  ulcd_send data size (w, u) =
  Some (ERROK,
        (mk_world (open_script w) rest (read_script w) (written w)
                  (read_calls w) (Z.pos e) (uninit w), u)) /\
  ulcd_send_recv_ack data size (w, u) =
  ulcd_recv_ack
    (mk_world (open_script w) rest (read_script w) (written w)
              (read_calls w) (Z.pos e) (uninit w), u).
Proof.
  intros Hok Hsize Hscript.
  assert (Hmod : 2 ^ 31 < size_t_modulus) by reflexivity.
  assert (Hsend :
            ulcd_send data size (w, u) =
            Some (ERROK,
                  (mk_world (open_script w) rest (read_script w) (written w)
                            (read_calls w) (Z.pos e) (uninit w), u))).
  { unfold ulcd_send. cbn [fst]. rewrite Hscript.
    cbn [length send_loop].
    assert (Hcond : (0 <? to_size_t size) = true).
    { rewrite to_size_t_small by lia. apply Z.ltb_lt. lia. }
    rewrite Hcond. unfold bind, sys_write. rewrite Hscript.
    rewrite size_t_never_negative.
    change (to_size_t (0 + to_size_t (-1))) with (size_t_modulus - 1).
    assert (Hend : (size_t_modulus - 1 <? to_size_t size) = false).
    { rewrite to_size_t_small by lia. apply Z.ltb_ge. lia. }
    destruct (length rest); cbn [send_loop]; rewrite Hend; reflexivity. }
  split; [exact Hsend|].
  unfold ulcd_send_recv_ack.
  apply send_recv_ack_with_success; assumption.
Qed.

Lemma failed_write_still_awaits_ack_witness :
  ulcd_send (platform := signed_char_platform) (header := sample_header)
            [1; 2; 3] 3
            (fresh_world [WriteFail 5] [ReadChunk [ACK]], new_handle) =
  Some (0,
        ({| open_script := []; write_script := [];
            read_script := [ReadChunk [ACK]]; written := [];
            read_calls := 0; errno := 5; uninit := fun _ => 0 |},
         new_handle)) /\
  ulcd_send_recv_ack (platform := signed_char_platform)
                     (header := sample_header) [1; 2; 3] 3
                     (fresh_world [WriteFail 5] [ReadChunk [ACK]],
                      new_handle) =
  ulcd_recv_ack (platform := signed_char_platform)
                (header := sample_header)
    ({| open_script := []; write_script := [];
        read_script := [ReadChunk [ACK]]; written := [];
        read_calls := 0; errno := 5; uninit := fun _ => 0 |}, new_handle).
Proof.
  apply (failed_write_still_awaits_ack signed_char_platform sample_header
           [1; 2; 3] 3 (fresh_world [WriteFail 5] [ReadChunk [ACK]])
           new_handle 5 []).
  - reflexivity.
  - lia.
  - reflexivity.
Defined.

(** ** More on the exchange *)

(** X11.  A whole exchange on a line that works: when the transport
    takes the [size] bytes of the command in pieces and the device then
    answers with byte [b], [ulcd_send_recv_ack] has written the command
    in order, has taken exactly one byte of the answer (what follows it
    stays unread) and returns [ERROK] for ACK, [ERRNAK] for NAK and
    [ERRUNKNOWN] for any other byte, the latter two recorded on the
    handle. *)
Theorem exchange_end_to_end (platform : Platform) (header : Header)
        (data : list Z) (size : Z) (ks : list nat) (w : world)
        (u : ulcd_t) (wrest : list write_event) (b : Z) (more : list Z)
        (rrest : list read_event) :
  ERROK = 0 ->
  0 <= size < 2 ^ 31 ->
  write_script w = map WriteOk ks ++ wrest ->
  Forall (fun k => (1 <= k)%nat) ks ->
  list_sum ks = Z.to_nat size ->
  read_script w = ReadChunk (b :: more) :: rrest ->
  0 <= b < 256 ->
  exists code u',
    ulcd_send_recv_ack data size (w, u) =
    Some (code,
          (mk_world (open_script w) wrest (unread 1 (b :: more) rrest)
                    (written w ++ slices data ks)
                    (S (read_calls w)) (errno w) (uninit w), u')) /\
    concat (slices data ks) = firstn (Z.to_nat size) data /\
    (b = ACK -> code = ERROK /\ u' = u) /\
    (b = NAK -> code = ERRNAK /\ error u' = ERRNAK) /\
    (b <> ACK -> b <> NAK -> code = ERRUNKNOWN /\ error u' = ERRUNKNOWN).
Proof.
  intros Hok Hsize Hwscript Hks Hsum Hrscript Hb.
  destruct (ulcd_send_accumulates data size ks w u wrest
              Hsize Hwscript Hks Hsum) as [Hsend Hall].
  unfold ulcd_send_recv_ack.
  rewrite (send_recv_ack_with_success _ _ _ Hok Hsend).
  rewrite (ulcd_recv_ack_run _ u (ReadChunk (b :: more)) rrest)
    by exact Hrscript.
  cbv zeta. cbn [reply_byte].
  rewrite !char_load_eqb by (unfold ACK, NAK; lia).
  unfold after_read.
  cbn [open_script write_script read_script written read_calls errno uninit].
  destruct (Z.eqb_spec b ACK) as [Hack|Hack];
    [|destruct (Z.eqb_spec b NAK) as [Hnak|Hnak]];
    do 2 eexists; (split; [reflexivity|]); (split; [exact Hall|]);
    cbn [ulcd_error snd error].
  - repeat split; try reflexivity; intros; subst; try discriminate;
      contradiction.
  - repeat split; try reflexivity; intros; subst; try discriminate;
      contradiction.
  - repeat split; try reflexivity; intros; subst; contradiction.
Qed.

Lemma exchange_end_to_end_witness :
  exists code u',
    ulcd_send_recv_ack (platform := signed_char_platform)
                       (header := sample_header) [1; 2; 3] 3
                       (fresh_world [WriteOk 2; WriteOk 1]
                                    [ReadChunk [NAK; 7]], new_handle) =
    Some (code,
          ({| open_script := []; write_script := [];
              read_script := unread 1 [NAK; 7] [];
              written := [] ++ slices [1; 2; 3] [2; 1]%nat;
              read_calls := 1; errno := 0; uninit := fun _ => 0 |}, u')) /\
    concat (slices [1; 2; 3] [2; 1]%nat) = firstn (Z.to_nat 3) [1; 2; 3] /\
    (NAK = ACK -> code = 0 /\ u' = new_handle) /\
    (NAK = NAK -> code = 1 /\ error u' = 1) /\
    (NAK <> ACK -> NAK <> NAK -> code = 2 /\ error u' = 2).
Proof.
  apply (exchange_end_to_end signed_char_platform sample_header
           [1; 2; 3] 3 [2; 1]%nat
           (fresh_world [WriteOk 2; WriteOk 1] [ReadChunk [NAK; 7]])
           new_handle [] NAK [7] []).
  - reflexivity.
  - lia.
  - reflexivity.
  - repeat constructor.
  - reflexivity.
  - reflexivity.
  - unfold NAK; lia.
Defined.

(** X12.  A [read] that fails at the start of the payload is not
    reported: after a successful exchange, [ulcd_send_recv_ack_data]
    asked for [n > 0] bytes returns [ERROK] although it has stored no
    byte in the caller's buffer, which is as it was. *)
Theorem payload_read_failure_unreported (platform : Platform)
        (header : Header) (data : list Z) (size : Z) (buffer : list Z)
        (n : Z) (s : state) (w1 : world) (u1 : ulcd_t) (e : positive)
        (rest : list read_event) :
  ERROK = 0 ->
  0 < n < 2 ^ 31 ->
  ulcd_send_recv_ack data size s = Some (ERROK, (w1, u1)) ->
  read_script w1 = ReadFail e :: rest ->
  ulcd_send_recv_ack_data data size buffer n s =
  Some ((ERROK, buffer),
        (mk_world (open_script w1) (write_script w1) rest (written w1)
                  (S (read_calls w1)) (Z.pos e) (uninit w1), u1)).
Proof.
  intros Hok Hn Hrun Hscript.
  assert (Hmod : 2 ^ 31 < size_t_modulus) by reflexivity.
  rewrite (data_after_exchange _ _ _ _ _ _ Hok Hrun). cbn [fst].
  rewrite Hscript. cbn [read_weight data_loop].
  assert (Hcond : (0 <? to_size_t n) = true).
  { rewrite to_size_t_small by lia. apply Z.ltb_lt. lia. }
  rewrite Hcond. unfold bind, sys_read. rewrite Hscript.
  rewrite size_t_never_negative.
  change (to_size_t (0 + to_size_t (-1))) with (size_t_modulus - 1).
  rewrite data_loop_done.
  - unfold write_at. cbn [Z.to_nat firstn length Nat.add skipn app].
    reflexivity.
  - pose proof (to_size_t_range n). lia.
Qed.

Lemma payload_read_failure_unreported_witness :
  ulcd_send_recv_ack_data (platform := signed_char_platform)
                          (header := sample_header)
                          [1; 2; 3] 3 [0; 0; 0; 0] 4
                          (fresh_world [WriteOk 3]
                                       [ReadChunk [ACK]; ReadFail 5],
                           new_handle) =
  Some ((0, [0; 0; 0; 0]),
        ({| open_script := []; write_script := []; read_script := [];
            written := [[1; 2; 3]]; read_calls := 2; errno := 5;
            uninit := fun _ => 0 |}, new_handle)).
Proof.
  apply (payload_read_failure_unreported signed_char_platform sample_header
           [1; 2; 3] 3 [0; 0; 0; 0] 4
           (fresh_world [WriteOk 3] [ReadChunk [ACK]; ReadFail 5],
            new_handle)
           {| open_script := []; write_script := [];
              read_script := [ReadFail 5];
              written := [[1; 2; 3]]; read_calls := 1; errno := 0;
              uninit := fun _ => 0 |} new_handle 5 []).
  - reflexivity.
  - lia.
  - reflexivity.
  - reflexivity.
Defined.

(** X13.  [ulcd_send_recv_ack_data] takes no more than it was asked
    for: when the bytes ready after the acknowledgment are the [n]
    bytes of the payload followed by more, one [read] stores exactly
    the payload, and what follows stays ready for the next exchange. *)
Theorem payload_read_takes_no_more (platform : Platform) (header : Header)
        (data : list Z) (size : Z) (buffer : list Z) (n : Z) (s : state)
        (w1 : world) (u1 : ulcd_t) (payload surplus : list Z)
        (rest : list read_event) :
  ERROK = 0 ->
  0 < n < 2 ^ 31 ->
  (Z.to_nat n <= length buffer)%nat ->
  ulcd_send_recv_ack data size s = Some (ERROK, (w1, u1)) ->
  read_script w1 = ReadChunk (payload ++ surplus) :: rest ->
  length payload = Z.to_nat n ->
  ulcd_send_recv_ack_data data size buffer n s =
  Some ((ERROK, payload ++ skipn (Z.to_nat n) buffer),
        (mk_world (open_script w1) (write_script w1)
                  (match surplus with
                   | [] => rest
                   | _ :: _ => ReadChunk surplus :: rest
                   end)
                  (written w1) (S (read_calls w1)) (errno w1) (uninit w1),
         u1)).
Proof.
  intros Hok Hn Hroom Hrun Hscript Hlen.
  assert (Hmod : 2 ^ 31 < size_t_modulus) by reflexivity.
  rewrite (data_after_exchange _ _ _ _ _ _ Hok Hrun). cbn [fst].
  rewrite Hscript. cbn [read_weight data_loop].
  assert (Hcond : (0 <? to_size_t n) = true).
  { rewrite to_size_t_small by lia. apply Z.ltb_lt. lia. }
  rewrite Hcond. unfold bind, sys_read. rewrite Hscript.
  rewrite (to_size_t_small n) by lia.
  rewrite Z.sub_0_r, (to_size_t_small n) by lia.
  rewrite <- Hlen.
  rewrite firstn_app, Nat.sub_diag, firstn_all. cbn [firstn].
  rewrite app_nil_r.
  rewrite size_t_never_negative.
  rewrite data_loop_done.
  - unfold unread. rewrite skipn_app, Nat.sub_diag, skipn_all.
    cbn [skipn app]. unfold write_at.
    cbn [Z.to_nat firstn Nat.add app].
    destruct surplus; reflexivity.
  - rewrite (to_size_t_small (Z.of_nat (length payload))) by lia.
    rewrite to_size_t_small by lia.
    rewrite to_size_t_small by lia. lia.
Qed.

Lemma payload_read_takes_no_more_witness :
  ulcd_send_recv_ack_data (platform := signed_char_platform)
                          (header := sample_header)
                          [1; 2; 3] 3 [0; 0] 2
                          (fresh_world [WriteOk 3]
                                       [ReadChunk [ACK; 10; 20; 30]],
                           new_handle) =
  Some ((0, [10; 20] ++ skipn (Z.to_nat 2) [0; 0]),
        ({| open_script := []; write_script := [];
            read_script := [ReadChunk [30]];
            written := [[1; 2; 3]]; read_calls := 2; errno := 0;
            uninit := fun _ => 0 |}, new_handle)).
Proof.
  apply (payload_read_takes_no_more signed_char_platform sample_header
           [1; 2; 3] 3 [0; 0] 2
           (fresh_world [WriteOk 3] [ReadChunk [ACK; 10; 20; 30]],
            new_handle)
           {| open_script := []; write_script := [];
              read_script := [ReadChunk [10; 20; 30]];
              written := [[1; 2; 3]]; read_calls := 1; errno := 0;
              uninit := fun _ => 0 |} new_handle [10; 20] [30] []).
  - reflexivity.
  - lia.
  - simpl; lia.
  - reflexivity.
  - reflexivity.
  - reflexivity.
Defined.

(** ** The word exchange *)

(** X14.  [ulcd_send_recv_ack_word] decodes the two bytes of the answer
    most significant byte first: after a successful exchange, when the
    bytes [hi] and [lo] arrive (in one read or in two), it returns
    [ERROK] and stores [hi * 256 + lo] through its parameter, whatever
    the signedness of [char]. *)
Theorem word_decodes_msb_first (platform : Platform) (header : Header)
        (data : list Z) (size : Z) (s : state) (w1 : world) (u1 : ulcd_t)
        (chunks : list (list Z)) (rest : list read_event) (hi lo : Z) :
  ERROK = 0 ->
  ulcd_send_recv_ack data size s = Some (ERROK, (w1, u1)) ->
  read_script w1 = map ReadChunk chunks ++ rest ->
  Forall (fun c => c <> []) chunks ->
  concat chunks = [hi; lo] ->
  0 <= hi < 256 -> 0 <= lo < 256 ->
  ulcd_send_recv_ack_word data size true s =
  Some ((ERROK, Some (hi * 256 + lo)), (after_chunks w1 chunks rest, u1)).
Proof.
  intros Hok Hrun Hscript Hne Hcat Hhi Hlo.
  unfold ulcd_send_recv_ack_word, bind, get_uninit.
  rewrite (data_after_exchange _ _ _ _ _ _ Hok Hrun). cbn [fst].
  assert (Hloop :=
            data_loop_chunks chunks (read_weight (read_script w1))
                             [uninit (fst s) 0; uninit (fst s) 1] 0
                             w1 u1 rest 2).
  cbn [Z.of_nat firstn app] in Hloop. rewrite Hloop.
  - rewrite Hcat.
    replace (negb (ERROK =? 0)) with false by (rewrite Hok; reflexivity).
    unfold ret. cbn [app skipn Z.to_nat Pos.to_nat Pos.iter_op Nat.add].
    rewrite (unpack_uint_bytes [hi; lo] 0 hi lo Hhi Hlo eq_refl eq_refl).
    reflexivity.
  - unfold size_t_modulus. lia.
  - exact Hscript.
  - exact Hne.
  - rewrite Hcat. reflexivity.
  - rewrite Hscript, read_weight_app.
    pose proof (read_weight_chunks chunks). lia.
  - cbn. lia.
Qed.

Lemma word_decodes_msb_first_witness :
  ulcd_send_recv_ack_word (platform := signed_char_platform)
                          (header := sample_header) [1; 2; 3] 3 true
                          (fresh_world [WriteOk 3]
                             [ReadChunk [ACK]; ReadChunk [0xBE];
                              ReadChunk [0xEF]],
                           new_handle) =
  Some ((0, Some (0xBE * 256 + 0xEF)),
        (after_chunks
           {| open_script := []; write_script := [];
              read_script := [ReadChunk [0xBE]; ReadChunk [0xEF]];
              written := [[1; 2; 3]]; read_calls := 1; errno := 0;
              uninit := fun _ => 0 |} [[0xBE]; [0xEF]] [],
         new_handle)).
Proof.
  apply (word_decodes_msb_first signed_char_platform sample_header
           [1; 2; 3] 3
           (fresh_world [WriteOk 3]
              [ReadChunk [ACK]; ReadChunk [0xBE]; ReadChunk [0xEF]],
            new_handle)
           {| open_script := []; write_script := [];
              read_script := [ReadChunk [0xBE]; ReadChunk [0xEF]];
              written := [[1; 2; 3]]; read_calls := 1; errno := 0;
              uninit := fun _ => 0 |} new_handle
           [[0xBE]; [0xEF]] [] 0xBE 0xEF).
  - reflexivity.
  - reflexivity.
  - reflexivity.
  - repeat constructor; discriminate.
  - reflexivity.
  - lia.
  - lia.
Defined.

(** X15.  Whether the caller of [ulcd_send_recv_ack_word] wants the
    value or passes NULL changes neither the code returned nor the
    state the call ends in: the two bytes of the answer are taken from
    the transport either way; with NULL nothing is stored. *)
Theorem word_drains_either_way (platform : Platform) (header : Header)
        (data : list Z) (size : Z) (s : state) :
  option_map (fun r => (fst (fst r), snd r))
             (ulcd_send_recv_ack_word data size true s) =
  option_map (fun r => (fst (fst r), snd r))
             (ulcd_send_recv_ack_word data size false s) /\
  (forall r s',
      ulcd_send_recv_ack_word data size false s = Some (r, s') ->
      snd r = None).
Proof.
  unfold ulcd_send_recv_ack_word, bind, get_uninit. split.
  - destruct (ulcd_send_recv_ack_data _ _ _ _ s) as [[[x buffer] s1]|];
      [|reflexivity].
    destruct (negb (x =? 0)); reflexivity.
  - intros r s'.
    destruct (ulcd_send_recv_ack_data _ _ _ _ s) as [[[x buffer] s1]|];
      [|discriminate].
    destruct (negb (x =? 0)); unfold ret; intros [= <- <-]; reflexivity.
Qed.

(** X16.  When its exchange fails, [ulcd_send_recv_ack_word] returns
    -1 and stores nothing: the code of the failure ([ERRNAK] or
    [ERRUNKNOWN]) is to be found on the handle only, and no payload
    byte has been read. *)
Theorem word_failure_is_minus_one (platform : Platform) (header : Header)
        (data : list Z) (size : Z) (want : bool) (s : state) (x : Z)
        (s1 : state) :
  ERROK = 0 ->
  ulcd_send_recv_ack data size s = Some (x, s1) ->
  x <> 0 ->
  ulcd_send_recv_ack_word data size want s = Some ((-1, None), s1) /\
  error (snd s1) = x.
Proof.
  intros Hok Hrun Hx.
  assert (He : x = error (snd s1)).
  { destruct (send_recv_ack_with_code _ _ _ _ Hrun) as [Hxok|Hxe];
      [congruence|exact Hxe]. }
  split; [|symmetry; exact He].
  unfold ulcd_send_recv_ack_word, ulcd_send_recv_ack_data, bind, get_uninit.
  rewrite Hrun.
  destruct (Z.eqb_spec x 0) as [|_]; [contradiction|]. cbn [negb].
  unfold get_error, ret. rewrite <- He.
  destruct (Z.eqb_spec x 0) as [|_]; [contradiction|]. reflexivity.
Qed.

Lemma word_failure_is_minus_one_witness :
  ulcd_send_recv_ack_word (platform := signed_char_platform)
                          (header := sample_header) [1; 2; 3] 3 true
                          (fresh_world [WriteOk 3] [ReadChunk [0x42; 9]],
                           new_handle) =
  Some ((-1, None),
        ({| open_script := []; write_script := [];
            read_script := [ReadChunk [9]];
            written := [[1; 2; 3]]; read_calls := 1; errno := 0;
            uninit := fun _ => 0 |},
         snd (ulcd_error (header := sample_header) new_handle 2
                (Some "Device sent unknown reply instead of ACK"%string))))
  /\
  error (snd (ulcd_error (header := sample_header) new_handle 2
                (Some "Device sent unknown reply instead of ACK"%string)))
  = 2.
Proof.
  apply (word_failure_is_minus_one signed_char_platform sample_header
           [1; 2; 3] 3 true
           (fresh_world [WriteOk 3] [ReadChunk [0x42; 9]], new_handle) 2
           ({| open_script := []; write_script := [];
               read_script := [ReadChunk [9]];
               written := [[1; 2; 3]]; read_calls := 1; errno := 0;
               uninit := fun _ => 0 |},
            snd (ulcd_error (header := sample_header) new_handle 2
                   (Some "Device sent unknown reply instead of ACK"%string)))).
  - reflexivity.
  - reflexivity.
  - discriminate.
Defined.

(** ** The line settings *)

Lemma testbit_to_tcflag z n :
  0 <= n -> Z.testbit (to_tcflag z) n = (n <? 32) && Z.testbit z n.
Proof.
  intros Hn. unfold to_tcflag. destruct (Z.ltb_spec n 32).
  - rewrite Z.mod_pow2_bits_low by lia. reflexivity.
  - rewrite Z.mod_pow2_bits_high by lia. reflexivity.
Qed.

Lemma testbit_clear_bits flags mask n :
  0 <= n ->
  Z.testbit (clear_bits flags mask) n =
  (n <? 32) && (Z.testbit flags n && negb (Z.testbit mask n)).
Proof.
  intros Hn. unfold clear_bits.
  rewrite testbit_to_tcflag, Z.land_spec, Z.lnot_spec by exact Hn.
  reflexivity.
Qed.

Lemma testbit_set_bits flags mask n :
  0 <= n ->
  Z.testbit (set_bits flags mask) n =
  (n <? 32) && (Z.testbit flags n || Z.testbit mask n).
Proof.
  intros Hn. unfold set_bits.
  rewrite testbit_to_tcflag, Z.lor_spec by exact Hn. reflexivity.
Qed.

Lemma land_bits a b c n :
  Z.land a b = c -> Z.testbit a n && Z.testbit b n = Z.testbit c n.
Proof. intros <-. rewrite Z.land_spec. reflexivity. Qed.

Lemma testbit_tcflag_high z n :
  0 <= z < 2 ^ 32 -> (n <? 32) = false -> Z.testbit z n = false.
Proof.
  intros Hz Hn. apply Z.ltb_ge in Hn.
  rewrite <- (Z.mod_small z (2 ^ 32)) by exact Hz.
  apply Z.mod_pow2_bits_high. lia.
Qed.

(** Equalities between flag words are settled bit by bit. *)
Ltac flag_bits :=
  let n := fresh "n" in
  let Hn := fresh "Hn" in
  apply Z.bits_inj'; intros n Hn;
  rewrite ?Z.land_spec, ?Z.bits_0;
  repeat first [ rewrite testbit_set_bits by exact Hn
               | rewrite testbit_clear_bits by exact Hn ];
  rewrite ?Z.lor_spec;
  repeat match goal with
         | H : Z.land _ _ = _ |- _ =>
             apply (land_bits _ _ _ n) in H;
             rewrite ?Z.lor_spec, ?Z.bits_0 in H; revert H
         | H : 0 <= ?z < 2 ^ 32 |- _ =>
             generalize (testbit_tcflag_high z n H); clear H
         end;
  repeat match goal with
         | |- context [Z.testbit ?x n] => destruct (Z.testbit x n)
         end;
  destruct (n <? 32); cbn; intros; try reflexivity;
  repeat match goal with
         | H : ?a = ?a -> _ |- _ => specialize (H eq_refl)
         end;
  congruence.

(** X17.  [ulcd_set_serial_parameters] leaves the control flags at
    8N1 with the receiver on, whatever the settings were before and
    whatever the speed functions did to them: parity off, one stop bit,
    the size field equal to [CS8], [CREAD] set.  This needs of the
    header only that [CS8] lies within [CSIZE] and that [CS8] and
    [CREAD] do not overlap [PARENB], [CSTOPB] or, for [CREAD],
    [CSIZE]. *)
Theorem serial_parameters_8N1 (termios_h : Termios_h) (ulcd : ulcd_t)
        (options : termios) :
  0 <= CS8 < 2 ^ 32 ->
  0 <= CREAD < 2 ^ 32 ->
  Z.land CS8 CSIZE = CS8 ->
  Z.land CREAD CSIZE = 0 ->
  Z.land PARENB (Z.lor CS8 CREAD) = 0 ->
  Z.land CSTOPB (Z.lor CS8 CREAD) = 0 ->
  Z.land (c_cflag (ulcd_set_serial_parameters ulcd options)) PARENB = 0 /\
  Z.land (c_cflag (ulcd_set_serial_parameters ulcd options)) CSTOPB = 0 /\
  Z.land (c_cflag (ulcd_set_serial_parameters ulcd options)) CSIZE = CS8 /\
  Z.land (c_cflag (ulcd_set_serial_parameters ulcd options)) CREAD = CREAD.
Proof.
  intros Hcs8 Hcread Hsub Hcr Hpar Hstop.
  unfold ulcd_set_serial_parameters. cbn [c_cflag].
  repeat split; flag_bits.
Qed.

Lemma serial_parameters_8N1_witness :
  Z.land (c_cflag (ulcd_set_serial_parameters
                     (termios_h := linux_termios_h)
                     new_handle cooked_options)) 0x100 = 0 /\
  Z.land (c_cflag (ulcd_set_serial_parameters
                     (termios_h := linux_termios_h)
                     new_handle cooked_options)) 0x40 = 0 /\
  Z.land (c_cflag (ulcd_set_serial_parameters
                     (termios_h := linux_termios_h)
                     new_handle cooked_options)) 0x30 = 0x30 /\
  Z.land (c_cflag (ulcd_set_serial_parameters
                     (termios_h := linux_termios_h)
                     new_handle cooked_options)) 0x80 = 0x80.
Proof.
  apply (serial_parameters_8N1 linux_termios_h new_handle cooked_options);
    try reflexivity; cbn; lia.
Defined.

(** X18.  [ulcd_set_serial_parameters] leaves the line raw: canonical
    mode, the two echo flags and signals are off, parity errors are
    ignored, software flow control is off in all three flags, output
    processing is off, and a read waits for one byte without a timer
    ([c_cc[VMIN]] is 1, [c_cc[VTIME]] is 0).  This needs of the header
    that [IGNPAR] is not one of the flow control bits and that [VMIN]
    and [VTIME] are two indices. *)
Theorem serial_parameters_raw (termios_h : Termios_h) (ulcd : ulcd_t)
        (options : termios) :
  0 <= IGNPAR < 2 ^ 32 ->
  Z.land IGNPAR (Z.lor (Z.lor IXON IXOFF) IXANY) = 0 ->
  VMIN <> VTIME ->
  (Z.land (c_lflag (ulcd_set_serial_parameters ulcd options)) ICANON = 0 /\
   Z.land (c_lflag (ulcd_set_serial_parameters ulcd options)) ECHO = 0 /\
   Z.land (c_lflag (ulcd_set_serial_parameters ulcd options)) ECHOE = 0 /\
   Z.land (c_lflag (ulcd_set_serial_parameters ulcd options)) ISIG = 0) /\
  (Z.land (c_iflag (ulcd_set_serial_parameters ulcd options)) IGNPAR
   = IGNPAR /\
   Z.land (c_iflag (ulcd_set_serial_parameters ulcd options)) IXON = 0 /\
   Z.land (c_iflag (ulcd_set_serial_parameters ulcd options)) IXOFF = 0 /\
   Z.land (c_iflag (ulcd_set_serial_parameters ulcd options)) IXANY = 0) /\
  Z.land (c_oflag (ulcd_set_serial_parameters ulcd options)) OPOST = 0 /\
  c_cc (ulcd_set_serial_parameters ulcd options) VMIN = 1 /\
  c_cc (ulcd_set_serial_parameters ulcd options) VTIME = 0.
Proof.
  intros Hign Hflow Hcc.
  unfold ulcd_set_serial_parameters. cbn [c_lflag c_iflag c_oflag c_cc].
  split; [|split; [|split; [|split]]].
  - repeat split; flag_bits.
  - repeat split; flag_bits.
  - flag_bits.
  - unfold set_cc. rewrite Nat.eqb_refl.
    destruct (Nat.eqb_spec VMIN VTIME) as [Heq|_]; [contradiction|].
    reflexivity.
  - unfold set_cc. rewrite Nat.eqb_refl. reflexivity.
Qed.

Lemma serial_parameters_raw_witness :
  let after :=
    ulcd_set_serial_parameters (termios_h := linux_termios_h)
                               new_handle cooked_options in
  (Z.land (c_lflag after) 0x2 = 0 /\
   Z.land (c_lflag after) 0x8 = 0 /\
   Z.land (c_lflag after) 0x10 = 0 /\
   Z.land (c_lflag after) 0x1 = 0) /\
  (Z.land (c_iflag after) 0x4 = 0x4 /\
   Z.land (c_iflag after) 0x400 = 0 /\
   Z.land (c_iflag after) 0x1000 = 0 /\
   Z.land (c_iflag after) 0x800 = 0) /\
  Z.land (c_oflag after) 0x1 = 0 /\
  c_cc after 6%nat = 1 /\
  c_cc after 5%nat = 0.
Proof.
  apply (serial_parameters_raw linux_termios_h new_handle cooked_options).
  - cbn; lia.
  - reflexivity.
  - discriminate.
Defined.

(** X19.  [ulcd_set_serial_parameters] changes no setting but those it
    names: in each flag word every bit outside the masks the function
    uses is the bit the speed functions left, and so is every control
    character but [c_cc[VMIN]] and [c_cc[VTIME]]; the two speed fields
    are those the speed functions set, the output speed function being
    called last, both with the speed of the handle. *)
Theorem serial_parameters_frame (termios_h : Termios_h) (ulcd : ulcd_t)
        (options : termios) (n : Z) (k : nat) :
  0 <= n < 32 ->
  k <> VMIN -> k <> VTIME ->
  let before :=
    cfsetospeed (cfsetispeed options (baudrate ulcd)) (baudrate ulcd) in
  let after := ulcd_set_serial_parameters ulcd options in
  (Z.testbit
     (Z.lor (Z.lor (Z.lor (Z.lor PARENB CSTOPB) CSIZE) CS8) CREAD) n = false ->
   Z.testbit (c_cflag after) n = Z.testbit (c_cflag before) n) /\
  (Z.testbit (Z.lor (Z.lor (Z.lor ICANON ECHO) ECHOE) ISIG) n = false ->
   Z.testbit (c_lflag after) n = Z.testbit (c_lflag before) n) /\
  (Z.testbit (Z.lor IGNPAR (Z.lor (Z.lor IXON IXOFF) IXANY)) n = false ->
   Z.testbit (c_iflag after) n = Z.testbit (c_iflag before) n) /\
  (Z.testbit OPOST n = false ->
   Z.testbit (c_oflag after) n = Z.testbit (c_oflag before) n) /\
  c_cc after k = c_cc before k /\
  c_ispeed after = c_ispeed before /\
  c_ospeed after = c_ospeed before.
Proof.
  intros Hn Hmin Htime before after.
  assert (Hlow : (n <? 32) = true) by (apply Z.ltb_lt; lia).
  assert (Hpos : 0 <= n) by lia.
  subst before after. unfold ulcd_set_serial_parameters.
  cbn [c_cflag c_lflag c_iflag c_oflag c_cc c_ispeed c_ospeed].
  repeat first [ rewrite testbit_set_bits by exact Hpos
               | rewrite testbit_clear_bits by exact Hpos ].
  rewrite !Z.lor_spec, Hlow.
  split; [|split; [|split; [|split; [|split; [|split]]]]];
    try reflexivity.
  - repeat match goal with
           | |- context [Z.testbit ?x n] => destruct (Z.testbit x n)
           end; cbn; intros; congruence.
  - repeat match goal with
           | |- context [Z.testbit ?x n] => destruct (Z.testbit x n)
           end; cbn; intros; congruence.
  - repeat match goal with
           | |- context [Z.testbit ?x n] => destruct (Z.testbit x n)
           end; cbn; intros; congruence.
  - repeat match goal with
           | |- context [Z.testbit ?x n] => destruct (Z.testbit x n)
           end; cbn; intros; congruence.
  - unfold set_cc.
    destruct (Nat.eqb_spec k VTIME) as [|_]; [contradiction|].
    destruct (Nat.eqb_spec k VMIN) as [|_]; [contradiction|].
    reflexivity.
Qed.

Lemma serial_parameters_frame_witness :
  let before :=
    cfsetospeed (Termios_h := linux_termios_h)
      (cfsetispeed (Termios_h := linux_termios_h) cooked_options
                   (baudrate new_handle)) (baudrate new_handle) in
  let after :=
    ulcd_set_serial_parameters (termios_h := linux_termios_h)
                               new_handle cooked_options in
  (Z.testbit
     (Z.lor (Z.lor (Z.lor (Z.lor 0x100 0x40) 0x30) 0x30) 0x80) 1 = false ->
   Z.testbit (c_cflag after) 1 = Z.testbit (c_cflag before) 1) /\
  (Z.testbit (Z.lor (Z.lor (Z.lor 0x2 0x8) 0x10) 0x1) 1 = false ->
   Z.testbit (c_lflag after) 1 = Z.testbit (c_lflag before) 1) /\
  (Z.testbit (Z.lor 0x4 (Z.lor (Z.lor 0x400 0x1000) 0x800)) 1 = false ->
   Z.testbit (c_iflag after) 1 = Z.testbit (c_iflag before) 1) /\
  (Z.testbit 0x1 1 = false ->
   Z.testbit (c_oflag after) 1 = Z.testbit (c_oflag before) 1) /\
  c_cc after 0%nat = c_cc before 0%nat /\
  c_ispeed after = c_ispeed before /\
  c_ospeed after = c_ospeed before.
Proof.
  apply (serial_parameters_frame linux_termios_h new_handle cooked_options
           1 0%nat).
  - lia.
  - discriminate.
  - discriminate.
Defined.

(** ** The baud rate table *)

Lemma sorted_codes_unique {A} (table : list (Z * A)) :
  StronglySorted Z.lt (map fst table) ->
  forall c s1 s2, In (c, s1) table -> In (c, s2) table -> s1 = s2.
Proof.
  induction table as [|[c0 s0] table IH]; intros Hsorted c s1 s2 H1 H2.
  - destruct H1.
  - cbn [map fst] in Hsorted. inversion Hsorted as [|? ? Hrest Hall]; subst.
    rewrite Forall_forall in Hall.
    assert (Hlater : forall s, In (c0, s) table -> False).
    { intros s Hin.
      assert (Hlt : c0 < c0); [|lia].
      apply Hall. apply (in_map fst table (c0, s)). exact Hin. }
    destruct H1 as [E1|H1], H2 as [E2|H2].
    + congruence.
    + exfalso. inversion E1; subst. eapply Hlater. eassumption.
    + exfalso. inversion E2; subst. eapply Hlater. eassumption.
    + eapply IH; eassumption.
Qed.

(** X20.  [baud_index] is in strictly increasing order of the device's
    baud code, so a code selects at most one speed; and no speed is
    listed under two codes. *)
Theorem baud_index_sorted_unique :
  StronglySorted Z.lt (map fst baud_index) /\
  (forall code speed1 speed2,
      In (code, speed1) baud_index -> In (code, speed2) baud_index ->
      speed1 = speed2) /\
  (forall code1 code2 speed,
      In (code1, speed) baud_index -> In (code2, speed) baud_index ->
      code1 = code2).
Proof.
  assert (Hsorted : StronglySorted Z.lt (map fst baud_index)).
  { cbn [map fst baud_index].
    repeat (apply SSorted_cons; [|repeat constructor; lia]).
    constructor. }
  split; [exact Hsorted|]. split.
  - apply sorted_codes_unique. exact Hsorted.
  - intros code1 code2 speed H1 H2. cbn [baud_index In] in H1, H2.
    repeat match goal with
           | H : _ \/ _ |- _ => destruct H as [H|H]
           | H : False |- _ => destruct H
           end;
      try discriminate; congruence.
Qed.

(** ** The acknowledgment and the signedness of [char] *)

(** X21.  [ulcd_recv_ack] gives the same result on a platform where
    plain [char] is signed as on one where it is unsigned: ACK and NAK
    are below 0x80, and no byte from 0x80 on is taken for either. *)
Theorem recv_ack_char_signedness (platform1 platform2 : Platform)
        (header : Header) (w : world) (u : ulcd_t) (ev : read_event)
        (rest : list read_event) :
  read_script w = ev :: rest ->
  0 <= reply_byte w ev < 256 ->
  ulcd_recv_ack (platform := platform1) (w, u) =
  ulcd_recv_ack (platform := platform2) (w, u).
Proof.
  intros Hscript Hbyte.
  rewrite !(ulcd_recv_ack_run w u ev rest Hscript). cbv zeta.
  rewrite !char_load_eqb by (unfold ACK, NAK; lia).
  reflexivity.
Qed.

Lemma recv_ack_char_signedness_witness :
  ulcd_recv_ack (platform := signed_char_platform)
                (header := sample_header)
                (fresh_world [] [ReadChunk [0x86]], new_handle) =
  ulcd_recv_ack (platform := unsigned_char_platform)
                (header := sample_header)
                (fresh_world [] [ReadChunk [0x86]], new_handle).
Proof.
  apply (recv_ack_char_signedness signed_char_platform
           unsigned_char_platform sample_header
           (fresh_world [] [ReadChunk [0x86]]) new_handle
           (ReadChunk [0x86]) []).
  - reflexivity.
  - cbn; lia.
Defined.

(** ** The short circuit of the exchange *)

(** [ulcd_send] when the first [write] of a command fails: [-1] in the
    unsigned [sent] is not negative, [total] wraps round, the loop
    ends, and [ERROK] is returned with nothing written. *)
Lemma ulcd_send_first_write_fails {platform : Platform} {header : Header}
      data size w u e rest :
  0 < size < 2 ^ 31 ->
  write_script w = WriteFail e :: rest ->
  ulcd_send data size (w, u) =
  Some (ERROK,
        (mk_world (open_script w) rest (read_script w) (written w)
                  (read_calls w) (Z.pos e) (uninit w), u)).
Proof.
  intros Hsize Hscript.
  assert (Hmod : 2 ^ 31 < size_t_modulus) by reflexivity.
  unfold ulcd_send. cbn [fst]. rewrite Hscript.
  cbn [length send_loop].
  assert (Hcond : (0 <? to_size_t size) = true).
  { rewrite to_size_t_small by lia. apply Z.ltb_lt. lia. }
  rewrite Hcond. unfold bind, sys_write. rewrite Hscript.
  rewrite size_t_never_negative.
  change (to_size_t (0 + to_size_t (-1))) with (size_t_modulus - 1).
  assert (Hend : (size_t_modulus - 1 <? to_size_t size) = false).
  { rewrite to_size_t_small by lia. apply Z.ltb_ge. lia. }
  destruct (length rest); cbn [send_loop]; rewrite Hend; reflexivity.
Qed.

(** C5, the code at the failing input.  The short circuit of
    [ulcd_send_recv_ack] is written ([if (ulcd_send(...)) return
    ulcd->error]) but never taken: when the first [write] of a command
    fails with error number [e], [ulcd_send] returns [ERROK], so that
    [ulcd_recv_ack] is invoked all the same.  With nothing written and
    [errno] at [e], the operation makes a [read], takes a byte of the
    transport and returns what that byte stands for ([ERROK] for ACK,
    with the handle untouched): the failure of the send step is not
    what it returns. *)
Theorem send_failure_not_short_circuited (platform : Platform)
        (header : Header) (data : list Z) (size : Z) (w : world)
        (u : ulcd_t) (e : positive) (wrest : list write_event) (b : Z)
        (more : list Z) (rrest : list read_event) :
  ERROK = 0 ->
  0 < size < 2 ^ 31 ->
  write_script w = WriteFail e :: wrest ->
  read_script w = ReadChunk (b :: more) :: rrest ->
  0 <= b < 256 ->
  exists code u',
    ulcd_send_recv_ack data size (w, u) =
    Some (code,
          (mk_world (open_script w) wrest (unread 1 (b :: more) rrest)
                    (written w) (S (read_calls w)) (Z.pos e) (uninit w),
           u')) /\
    (b = ACK -> code = ERROK /\ u' = u) /\
    (b = NAK -> code = ERRNAK /\ error u' = ERRNAK) /\
    (b <> ACK -> b <> NAK -> code = ERRUNKNOWN /\ error u' = ERRUNKNOWN).
Proof.
  intros Hok Hsize Hwscript Hrscript Hb.
  pose proof (ulcd_send_first_write_fails data size w u e wrest
                Hsize Hwscript) as Hsend.
  unfold ulcd_send_recv_ack.
  rewrite (send_recv_ack_with_success _ _ _ Hok Hsend).
  rewrite (ulcd_recv_ack_run _ u (ReadChunk (b :: more)) rrest)
    by exact Hrscript.
  cbv zeta. cbn [reply_byte].
  rewrite !char_load_eqb by (unfold ACK, NAK; lia).
  unfold after_read.
  cbn [open_script write_script read_script written read_calls errno uninit].
  destruct (Z.eqb_spec b ACK) as [Hack|Hack];
    [|destruct (Z.eqb_spec b NAK) as [Hnak|Hnak]];
    do 2 eexists; (split; [reflexivity|]);
    cbn [ulcd_error snd error].
  - repeat split; try reflexivity; intros; subst; try discriminate;
      contradiction.
  - repeat split; try reflexivity; intros; subst; try discriminate;
      contradiction.
  - repeat split; try reflexivity; intros; subst; contradiction.
Qed.

Lemma send_failure_not_short_circuited_witness :
  exists code u',
    ulcd_send_recv_ack (platform := signed_char_platform)
                       (header := sample_header) [1; 2; 3] 3
                       (fresh_world [WriteFail 5] [ReadChunk [ACK]],
                        new_handle) =
    Some (code,
          ({| open_script := []; write_script := [];
              read_script := unread 1 [ACK] [];
              written := []; read_calls := 1; errno := 5;
              uninit := fun _ => 0 |}, u')) /\
    (ACK = ACK -> code = 0 /\ u' = new_handle) /\
    (ACK = NAK -> code = 1 /\ error u' = 1) /\
    (ACK <> ACK -> ACK <> NAK -> code = 2 /\ error u' = 2).
Proof.
  apply (send_failure_not_short_circuited signed_char_platform sample_header
           [1; 2; 3] 3 (fresh_world [WriteFail 5] [ReadChunk [ACK]])
           new_handle 5 [] ACK [] []).
  - reflexivity.
  - lia.
  - reflexivity.
  - reflexivity.
  - unfold ACK; lia.
Defined.
